(** * Atlassian Cloud backups: the three Lambda entry points

    A shallow embedding of
      - [confluence/backups-download/lambda_function.py]
      - [jira-backups-download/lambda_function.py]
      - [confluence/backups-trigger/lambda_function.py]

    Python values that cross the boundary of the program (the invocation
    event, decoded JSON documents, the handler's result) are values of
    [PyVal].  Everything outside the program (environment variables,
    Secrets Manager, the Atlassian site, the clock, S3, and the library
    functions [json.loads] and [str]) is a field of [World].  The
    functions of the program run in a state-and-exception monad [M]: the
    state is the log of outbound calls made so far together with the
    contents of S3.  What [print] writes is not recorded; that it can raise
    is. *)

From Stdlib Require Import ZArith String Ascii SpecFloat.
From stdpp Require Import base option list gmap strings.

Set Warnings "-register-all".
Local Open Scope string_scope.
Local Open Scope Z_scope.
Local Open Scope list_scope.

(** ** Python values *)

Inductive PyVal : Type :=
  | PNone
  | PBool (b : bool)
  | PInt (n : Z)
  | PFloat (f : spec_float)
  | PStr (s : string)
  | PList (l : list PyVal)
  | PDict (d : gmap string PyVal).

(** Exceptions the program raises itself or lets through. *)
Inductive exn : Type :=
  | KeyError (key : string)
  | TypeError
  | RuntimeError (msg : string)
  | HTTPError (status_code : Z)
  | JSONDecodeError
  | UnicodeEncodeError
  | LibraryError (what : string).

Inductive Result (A : Type) : Type :=
  | Ok (a : A)
  | Err (e : exn).
Arguments Ok {A} a.
Arguments Err {A} e.

(** [bool(v)]: Python truthiness. *)
Definition truthy (v : PyVal) : bool :=
  match v with
  | PNone => false
  | PBool b => b
  | PInt n => negb (n =? 0)
  | PFloat (S754_zero _) => false
  | PFloat _ => true
  | PStr s => negb (String.eqb s "")
  | PList l => match l with [] => false | _ => true end
  | PDict d => match map_to_list d with [] => false | _ => true end
  end.

(** [v == s] and [v != s] for a string literal [s]: only a [str] with the
    same characters is equal to it. *)
Definition py_eq_str (v : PyVal) (s : string) : bool :=
  match v with
  | PStr t => String.eqb t s
  | _ => false
  end.

Definition py_ne_str (v : PyVal) (s : string) : bool := negb (py_eq_str v s).

(** [sub in s] on two strings: substring test. *)
Fixpoint is_substring (sub s : string) : bool :=
  String.prefix sub s ||
  match s with
  | EmptyString => false
  | String _ s' => is_substring sub s'
  end.

(** [k in v] for a string literal [k]. *)
Definition py_contains_str (v : PyVal) (k : string) : Result bool :=
  match v with
  | PDict d => Ok (bool_decide (is_Some (d !! k)))
  | PList l => Ok (existsb (fun x => py_eq_str x k) l)
  | PStr s => Ok (is_substring k s)
  | PNone | PBool _ | PInt _ | PFloat _ => Err TypeError
  end.

(** [v[k]] for a string literal [k]. *)
Definition py_getitem_str (v : PyVal) (k : string) : Result PyVal :=
  match v with
  | PDict d => match d !! k with
               | Some x => Ok x
               | None => Err (KeyError k)
               end
  | _ => Err TypeError
  end.

(** ** Texts that cannot be printed

    A Python [str] is held as the bytes of its UTF-8 encoding, and a lone
    surrogate in it as the three bytes its code point would take: 237, a
    byte from 160 to 191, and a continuation byte.  [json.loads] returns
    such a string for an escape like [\ud800].  The console is UTF-8, so
    [print] refuses exactly the texts that hold a lone surrogate. *)

Fixpoint has_surrogate (s : string) : bool :=
  match s with
  | String a (String b _ as rest) =>
      ((nat_of_ascii a =? 237)%nat && (160 <=? nat_of_ascii b)%nat &&
       (nat_of_ascii b <=? 191)%nat)
      || has_surrogate rest
  | _ => false
  end.

(** Whether [f"{v}"] can be printed.  The [str] of a value that is not a
    string escapes what it cannot show, so only a string can fail. *)
Definition printable (v : PyVal) : bool :=
  match v with
  | PStr s => negb (has_surrogate s)
  | _ => true
  end.

(** ** Clock readings and [strftime] *)

(** A [datetime] object: the reading of the UTC clock. *)
Record datetime : Type := mk_datetime {
  year : Z; month : Z; day : Z;
  hour : Z; minute : Z; second : Z;
  microsecond : Z }.

(** The ranges Python's [datetime] type enforces. *)
Definition valid_datetime (t : datetime) : Prop :=
  1 <= year t <= 9999 ∧ 1 <= month t <= 12 ∧ 1 <= day t <= 31 ∧
  0 <= hour t < 24 ∧ 0 <= minute t < 60 ∧ 0 <= second t < 60 ∧
  0 <= microsecond t < 1000000.

(** The character of the last decimal digit of [d]. *)
Definition digit (d : Z) : ascii := ascii_of_nat (Z.to_nat (48 + d mod 10)).

(** [%m], [%d], [%H], [%M], [%S]: two digits, zero padded. *)
Definition pad2 (n : Z) : string :=
  String (digit (n / 10)) (String (digit n) EmptyString).

(** [%Y]: four digits, zero padded (some C libraries leave out the
    padding below the year 1000, which no running clock reads). *)
Definition pad4 (n : Z) : string :=
  String (digit (n / 1000)) (String (digit (n / 100))
    (String (digit (n / 10)) (String (digit n) EmptyString))).

(** [t.strftime('%Y-%m-%dT%H-%M-%SZ')] *)
Definition strftime (t : datetime) : string :=
  pad4 (year t) +:+ "-" +:+ pad2 (month t) +:+ "-" +:+ pad2 (day t) +:+ "T" +:+
  pad2 (hour t) +:+ "-" +:+ pad2 (minute t) +:+ "-" +:+ pad2 (second t) +:+ "Z".

(** ** Outbound calls and the world they reach *)

Inductive Method : Type := GET | POST.

(** What [requests.get] / [requests.post] is called with. *)
Record Request : Type := mk_request {
  method : Method;
  url : string;
  auth : PyVal * PyVal;
  headers : list (string * string);
  data : option string;
  stream : bool }.

(** The parts of a [requests.Response] the program reads. *)
Record Response : Type := mk_response {
  status_code : Z;
  text : string;
  raw : string }.

Inductive Event : Type :=
  | SecretsGet (region secret_id : string)
  | Http (r : Request)
  | S3Upload (bucket key body : string).

(** The state the program acts on: the calls made so far, oldest first,
    and the objects held in S3, by bucket and key. *)
Record State : Type := mk_state {
  log : list Event;
  s3 : gmap (string * string) string }.

Definition initial : State := mk_state [] ∅.

(** Everything the program does not define itself.  Each service answers
    as a function of the calls made before, so that an answer may change
    from one call to the next. *)
Record World : Type := mk_world {
  (** [json.loads]; [None] when the text is not JSON *)
  json_loads : string → option PyVal;
  (** [str(v)] for a [v] that is not a [str] *)
  str_other : PyVal → string;
  (** [os.environ] *)
  environ : gmap string string;
  (** [client.get_secret_value] of Secrets Manager, by region and id *)
  secretsmanager : list Event → string → string → Result (gmap string PyVal);
  (** the Atlassian site answering an HTTP request *)
  site : list Event → Request → Result Response;
  (** the UTC clock *)
  utc_clock : list Event → datetime;
  (** [s3.upload_fileobj], by bucket, key and body; [None] on success *)
  s3_upload : list Event → string → string → string → option exn }.

(** ** The monad of the program *)

Definition M (A : Type) : Type := State → Result A * State.

#[global] Instance M_ret : MRet M := λ A a σ, (Ok a, σ).
#[global] Instance M_bind : MBind M := λ A B f m σ,
  match m σ with
  | (Ok a, σ') => f a σ'
  | (Err e, σ') => (Err e, σ')
  end.

Definition raise {A : Type} (e : exn) : M A := λ σ, (Err e, σ).

Definition lift {A : Type} (r : Result A) : M A := λ σ, (r, σ).

Definition emit (ev : Event) (σ : State) : State :=
  mk_state (log σ ++ [ev]) (s3 σ).

(** [print(text)] of a text that the console always takes: a constant,
    the text of a response (which [requests] decodes with replacement,
    so that it holds no lone surrogate), or an object name. *)
Definition print_text (text : string) : M unit := mret tt.

(** [print(f"label{v}")] of a value taken from a JSON document. *)
Definition print_value (label : string) (v : PyVal) : M unit :=
  if printable v then mret tt else raise UnicodeEncodeError.

Section Primitives.
Variable w : World.

(** [os.environ[k]] *)
Definition os_environ (k : string) : M string :=
  match environ w !! k with
  | Some v => mret v
  | None => raise (KeyError k)
  end.

(** [client.get_secret_value(SecretId=secret_id)] on a client of
    [region] *)
Definition get_secret_value (region secret_id : string)
  : M (gmap string PyVal) :=
  λ σ, (secretsmanager w (log σ) region secret_id,
        emit (SecretsGet region secret_id) σ).

(** [json.loads(v)] *)
Definition json_loads_val (v : PyVal) : M PyVal :=
  match v with
  | PStr s => match json_loads w s with
              | Some j => mret j
              | None => raise JSONDecodeError
              end
  | _ => raise TypeError
  end.

Definition send (r : Request) : M Response :=
  λ σ, (site w (log σ) r, emit (Http r) σ).

(** [requests.get(url, auth=credentials)], with [stream=True] or not *)
Definition requests_get (u : string) (credentials : PyVal * PyVal)
    (streamed : bool) : M Response :=
  send (mk_request GET u credentials [] None streamed).

(** [requests.post(url, auth=credentials, headers=h, data=body)] *)
Definition requests_post (u : string) (credentials : PyVal * PyVal)
    (h : list (string * string)) (body : string) : M Response :=
  send (mk_request POST u credentials h (Some body) false).

(** [resp.raise_for_status()]: a 4xx or 5xx status raises. *)
Definition raise_for_status (resp : Response) : M unit :=
  if (400 <=? status_code resp) && (status_code resp <? 600)
  then raise (HTTPError (status_code resp))
  else mret tt.

(** [resp.json()] *)
Definition response_json (resp : Response) : M PyVal :=
  json_loads_val (PStr (text resp)).

(** [f"{v}"] *)
Definition format_value (v : PyVal) : string :=
  match v with
  | PStr s => s
  | _ => str_other w v
  end.

(** [datetime.now(UTC)] and [datetime.utcnow()] *)
Definition datetime_utcnow : M datetime :=
  λ σ, (Ok (utc_clock w (log σ)), σ).

(** [s3.upload_fileobj(body, bucket, key)]: the object is written, over
    any object of that key, when the upload succeeds. *)
Definition s3_upload_fileobj (body bucket key : string) : M unit :=
  λ σ,
    let σ' := emit (S3Upload bucket key body) σ in
    match s3_upload w (log σ) bucket key body with
    | None => (Ok tt, mk_state (log σ') (<[(bucket, key) := body]> (s3 σ')))
    | Some e => (Err e, σ')
    end.

(** *** Code shared verbatim by the three files *)

(** The session and the client are taken to be built; what the service
    refuses is among the answers of [secretsmanager]. *)
Definition get_secret : M PyVal :=
  region ← os_environ "CREDENTIALS_SECRET_REGION_NAME";
  secret_id ← os_environ "CREDENTIALS_SECRET_NAME";
  get_secret_value_response ← get_secret_value region secret_id;
  secret_string ← lift (py_getitem_str (PDict get_secret_value_response)
                                       "SecretString");
  json_loads_val secret_string.

Definition get_credentials : M (PyVal * PyVal) :=
  secret ← get_secret;
  email ← lift (py_getitem_str secret "email");
  api_token ← lift (py_getitem_str secret "api_token");
  mret (email, api_token).

Definition get_site_name : M string := os_environ "SITE_NAME".

End Primitives.

(** The message of the [RuntimeError] both download workflows raise when
    the backup is not finished: the condition the specification calls
    [BackupIncomplete]. *)
Definition BackupIncomplete : exn :=
  RuntimeError "The latest backup is not finished or was not successful.".

(** The double-quote character, and a quoted string. *)
Definition dq : string := String (ascii_of_nat 34) EmptyString.
Definition quoted (s : string) : string := dq +:+ s +:+ dq.

(** ** confluence/backups-download/lambda_function.py *)
Module ConfluenceDownload.
Section Program.
Variable w : World.

Definition get_download_url (credentials : PyVal * PyVal)
    (site_name : string) : M PyVal :=
  print_text "Querying status of the latest backup...";;
  status_resp ← requests_get w
    ("https://" +:+ site_name +:+ "/wiki/rest/obm/1.0/getprogress.json")
    credentials false;
  raise_for_status status_resp;;
  j ← response_json w status_resp;
  status ← lift (py_getitem_str j "currentStatus");
  print_value "Task status: " status;;
  if py_ne_str status "COMPLETE" then raise BackupIncomplete
  else
    j' ← response_json w status_resp;
    download_url ← lift (py_getitem_str j' "fileName");
    print_value "Backup file available at URL: " download_url;;
    mret download_url.

Definition download_file (credentials : PyVal * PyVal)
    (site_name : string) (download_url : PyVal) : M string :=
  print_value "Downloading from: " download_url;;
  backup_file ← requests_get w
    ("https://" +:+ site_name +:+ "/wiki/download/" +:+
     format_value w download_url)
    credentials true;
  raise_for_status backup_file;;
  mret (raw backup_file).

Definition upload_to_s3 (backup_file : string) : M string :=
  now ← datetime_utcnow w;
  let filename := "confluence-backup-" +:+ strftime now +:+ ".zip" in
  print_text ("Uploading to S3: " +:+ filename);;
  bucket ← os_environ w "S3_BUCKET_NAME";
  s3_upload_fileobj w backup_file bucket filename;;
  mret filename.

Definition lambda_handler (event context : PyVal) : M PyVal :=
  credentials ← get_credentials w;
  site_name ← get_site_name w;
  download_url ← get_download_url credentials site_name;
  backup_file ← download_file credentials site_name download_url;
  filename ← upload_to_s3 backup_file;
  mret (PDict (<["filename" := PStr filename]>
                 (<["status" := PStr "success"]> ∅))).
End Program.
End ConfluenceDownload.

(** ** jira-backups-download/lambda_function.py *)
Module JiraDownload.
Section Program.
Variable w : World.

Definition get_task_id (credentials : PyVal * PyVal)
    (site_name : string) : M string :=
  print_text "Querying latest task ID...";;
  status_resp ← requests_get w
    ("https://" +:+ site_name +:+ "/rest/backup/1/export/lastTaskId")
    credentials false;
  raise_for_status status_resp;;
  let task_id := text status_resp in
  print_text ("Task ID: " +:+ task_id);;
  mret task_id.

Definition get_download_url (credentials : PyVal * PyVal)
    (site_name : string) (task_id : string) : M PyVal :=
  print_text ("Querying status of task ID " +:+ task_id +:+ "...");;
  status_resp ← requests_get w
    ("https://" +:+ site_name +:+
     "/rest/backup/1/export/getProgress?taskId=" +:+ task_id)
    credentials false;
  raise_for_status status_resp;;
  j ← response_json w status_resp;
  status ← lift (py_getitem_str j "status");
  print_value "Task status: " status;;
  if py_ne_str status "Success" then raise BackupIncomplete
  else
    j' ← response_json w status_resp;
    download_url ← lift (py_getitem_str j' "result");
    print_value "Backup file available at URL: " download_url;;
    mret download_url.

Definition download_file (credentials : PyVal * PyVal)
    (site_name : string) (download_url : PyVal) : M string :=
  print_value "Downloading from: " download_url;;
  backup_file ← requests_get w
    ("https://" +:+ site_name +:+ "/plugins/servlet/" +:+
     format_value w download_url)
    credentials true;
  raise_for_status backup_file;;
  mret (raw backup_file).

Definition upload_to_s3 (backup_file : string) : M string :=
  now ← datetime_utcnow w;
  let filename := "jira-backup-" +:+ strftime now +:+ ".zip" in
  print_text ("Uploading to S3: " +:+ filename);;
  bucket ← os_environ w "S3_BUCKET_NAME";
  s3_upload_fileobj w backup_file bucket filename;;
  mret filename.

Definition lambda_handler (event context : PyVal) : M PyVal :=
  credentials ← get_credentials w;
  site_name ← get_site_name w;
  task_id ← get_task_id credentials site_name;
  download_url ← get_download_url credentials site_name task_id;
  backup_file ← download_file credentials site_name download_url;
  filename ← upload_to_s3 backup_file;
  mret (PDict (<["filename" := PStr filename]>
                 (<["status" := PStr "success"]> ∅))).
End Program.
End JiraDownload.

(** ** confluence/backups-trigger/lambda_function.py *)
Module ConfluenceTrigger.

Definition are_attachments_included (event : PyVal) : Result string :=
  match py_contains_str event "includeAttachments" with
  | Err e => Err e
  | Ok false => Ok "false"
  | Ok true =>
      match py_getitem_str event "includeAttachments" with
      | Err e => Err e
      | Ok v => if truthy v then Ok "true" else Ok "false"
      end
  end.

(** The text of the request body, as the f-string writes it. *)
Definition trigger_body (include_attachments : string) : string :=
  "{" +:+ quoted "cbAttachments" +:+ ":" +:+ quoted include_attachments +:+
  ", " +:+ quoted "exportToCloud" +:+ ":" +:+ quoted "true" +:+ "}".

Definition trigger_headers : list (string * string) :=
  [("Content-Type", "application/json"); ("Accept", "application/json")].

Section Program.
Variable w : World.

Definition trigger_backup (credentials : PyVal * PyVal)
    (include_attachments : string) : M unit :=
  site_name ← os_environ w "SITE_NAME";
  print_text "Triggering Jira Cloud backup...";;
  response ← requests_post w
    ("https://" +:+ site_name +:+ "/wiki/rest/obm/1.0/runbackup")
    credentials trigger_headers (trigger_body include_attachments);
  raise_for_status response.

Definition lambda_handler (event context : PyVal) : M PyVal :=
  credentials ← get_credentials w;
  include_attachments ← lift (are_attachments_included event);
  trigger_backup credentials include_attachments;;
  mret (PDict (<["status" := PStr "success"]> ∅)).
End Program.
End ConfluenceTrigger.

(** ** Classifying the calls of a log *)

(** A request to the Atlassian site. *)
Definition is_site_request (e : Event) : bool :=
  match e with Http _ => true | _ => false end.


Definition is_upload (e : Event) : bool :=
  match e with S3Upload _ _ _ => true | _ => false end.


(** A status code [raise_for_status] lets through. *)
Definition status_ok (resp : Response) : Prop :=
  ¬ (400 <= status_code resp < 600).

(** [produces P m]: whatever [m] returns, it leaves the log it started
    from extended by calls that all satisfy [P]. *)
Definition produces {A} (P : Event → Prop) (m : M A) : Prop :=
  ∀ σ r σ', m σ = (r, σ') → ∃ evs, log σ' = log σ ++ evs ∧ Forall P evs.

(** A call made on behalf of the holder of [credentials]: a site request
    authenticated with them, or an upload. *)
Definition made_with (credentials : PyVal * PyVal) (e : Event) : Prop :=
  match e with
  | SecretsGet _ _ => False
  | Http r => auth r = credentials
  | S3Upload _ _ _ => True
  end.

(** The three entry points. *)
Inductive EntryPoint : Type :=
  | ConfluenceDownloadEntry
  | JiraDownloadEntry
  | ConfluenceTriggerEntry.

Definition entry_point (p : EntryPoint) (w : World)
  : PyVal → PyVal → M PyVal :=
  match p with
  | ConfluenceDownloadEntry => ConfluenceDownload.lambda_handler w
  | JiraDownloadEntry => JiraDownload.lambda_handler w
  | ConfluenceTriggerEntry => ConfluenceTrigger.lambda_handler w
  end.

(** What each entry point does once it holds the credentials. *)
Definition after_credentials (p : EntryPoint) (w : World) (event : PyVal)
    (credentials : PyVal * PyVal) : M PyVal :=
  match p with
  | ConfluenceDownloadEntry =>
      site_name ← get_site_name w;
      download_url ← ConfluenceDownload.get_download_url w credentials site_name;
      backup_file ← ConfluenceDownload.download_file w credentials site_name
                      download_url;
      filename ← ConfluenceDownload.upload_to_s3 w backup_file;
      mret (PDict (<["filename" := PStr filename]>
                     (<["status" := PStr "success"]> ∅)))
  | JiraDownloadEntry =>
      site_name ← get_site_name w;
      task_id ← JiraDownload.get_task_id w credentials site_name;
      download_url ← JiraDownload.get_download_url w credentials site_name
                       task_id;
      backup_file ← JiraDownload.download_file w credentials site_name
                      download_url;
      filename ← JiraDownload.upload_to_s3 w backup_file;
      mret (PDict (<["filename" := PStr filename]>
                     (<["status" := PStr "success"]> ∅)))
  | ConfluenceTriggerEntry =>
      include_attachments ←
        lift (ConfluenceTrigger.are_attachments_included event);
      ConfluenceTrigger.trigger_backup w credentials include_attachments;;
      mret (PDict (<["status" := PStr "success"]> ∅))
  end.


(** ** The shape the two download workflows share

    The two download files differ in their URLs, field names, success
    literal and object-name prefix only.  The functions below are the
    common shape; each function of the two files is an instance of one of
    them (lemmas [confluence_instances] and [jira_instances]). *)

(** One status poll: a single request, the printing and the comparison of
    the status field, the extraction and the printing of the locator. *)
Definition poll (w : World) (u : string) (credentials : PyVal * PyVal)
    (status_key token locator_key : string) : M PyVal :=
  status_resp ← requests_get w u credentials false;
  raise_for_status status_resp;;
  j ← response_json w status_resp;
  status ← lift (py_getitem_str j status_key);
  print_value "Task status: " status;;
  if py_ne_str status token then raise BackupIncomplete
  else
    j' ← response_json w status_resp;
    download_url ← lift (py_getitem_str j' locator_key);
    print_value "Backup file available at URL: " download_url;;
    mret download_url.

(** The streamed download request. *)
Definition fetch (w : World) (u : string) (credentials : PyVal * PyVal)
  : M string :=
  backup_file ← requests_get w u credentials true;
  raise_for_status backup_file;;
  mret (raw backup_file).

(** The object name of a product at a clock reading. *)
Definition object_name (prefix : string) (t : datetime) : string :=
  prefix +:+ strftime t +:+ ".zip".

(** The upload under a name made from the clock reading. *)
Definition upload_named (w : World) (prefix : string) (backup_file : string)
  : M string :=
  now ← datetime_utcnow w;
  let filename := object_name prefix now in
  print_text ("Uploading to S3: " +:+ filename);;
  bucket ← os_environ w "S3_BUCKET_NAME";
  s3_upload_fileobj w backup_file bucket filename;;
  mret filename.

(** The dictionary a download entry point returns. *)
Definition success_result (filename : string) : PyVal :=
  PDict (<["filename" := PStr filename]> (<["status" := PStr "success"]> ∅)).

(** Two clock readings that agree down to the second. *)
Definition same_second (t1 t2 : datetime) : Prop :=
  year t1 = year t2 ∧ month t1 = month t2 ∧ day t1 = day t2 ∧
  hour t1 = hour t2 ∧ minute t1 = minute t2 ∧ second t1 = second t2.

(** A call that, if it is an upload, stores under the key [name]. *)
Definition uploads_as (name : string) (e : Event) : Prop :=
  match e with
  | S3Upload _ key _ => key = name
  | _ => True
  end.

(** The requests of the two workflows. *)
Definition get_request (u : string) (credentials : PyVal * PyVal)
    (streamed : bool) : Request :=
  mk_request GET u credentials [] None streamed.

(** The request the trigger sends to the run-backup path of [site_name]
    with the attachment flag [flag]. *)
Definition trigger_request (site_name : string)
    (credentials : PyVal * PyVal) (flag : string) : Request :=
  mk_request POST
    ("https://" +:+ site_name +:+ "/wiki/rest/obm/1.0/runbackup")
    credentials
    [("Content-Type", "application/json"); ("Accept", "application/json")]
    (Some ("{" +:+ quoted "cbAttachments" +:+ ":" +:+ quoted flag +:+ ", " +:+
           quoted "exportToCloud" +:+ ":" +:+ quoted "true" +:+ "}"))
    false.

(** A call the trigger may make: the call to Secrets Manager, or the
    run-backup request with the flag [true] or [false]. *)
Definition trigger_call (e : Event) : Prop :=
  match e with
  | SecretsGet _ _ => True
  | Http req => ∃ site_name credentials flag,
      (flag = "true" ∨ flag = "false") ∧
      req = trigger_request site_name credentials flag
  | S3Upload _ _ _ => False
  end.

(** [s3_blind m]: what [m] returns and what it adds to the log do not
    depend on what S3 holds. *)
Definition s3_blind {A} (m : M A) : Prop :=
  ∀ σ1 σ2, log σ1 = log σ2 →
    (m σ1).1 = (m σ2).1 ∧ log (m σ1).2 = log (m σ2).2.

(** The two products that have a download workflow. *)
Inductive Product : Type := Confluence | Jira.

Definition download_handler (p : Product) (w : World)
  : PyVal → PyVal → M PyVal :=
  match p with
  | Confluence => ConfluenceDownload.lambda_handler w
  | Jira => JiraDownload.lambda_handler w
  end.

Definition name_prefix (p : Product) : string :=
  match p with
  | Confluence => "confluence-backup-"
  | Jira => "jira-backup-"
  end.

(** The JSON text of an object with two string fields, written without
    spaces, and the object it denotes. *)
Definition json_text (k1 v1 k2 v2 : string) : string :=
  "{" +:+ quoted k1 +:+ ":" +:+ quoted v1 +:+ "," +:+
  quoted k2 +:+ ":" +:+ quoted v2 +:+ "}".

Definition json_object (k1 v1 k2 v2 : string) : PyVal :=
  PDict (<[k1 := PStr v1]> (<[k2 := PStr v2]> ∅)).

(** ** Example worlds

    Small concrete worlds on which the program can be run. *)
Module Example.

Definition env : gmap string string :=
  <["SITE_NAME" := "example.atlassian.net"]>
  (<["CREDENTIALS_SECRET_NAME" := "atlassian/backups/credentials"]>
  (<["CREDENTIALS_SECRET_REGION_NAME" := "us-east-1"]>
  (<["S3_BUCKET_NAME" := "backups"]> ∅))).

Definition email : PyVal := PStr "admin@example.com".
Definition api_token : PyVal := PStr "token".

Definition good_secret : PyVal :=
  PDict (<["email" := email]> (<["api_token" := api_token]> ∅)).

(** The secret without its [api_token] field. *)
Definition bad_secret : PyVal := PDict (<["email" := email]> ∅).

Definition secret_text : string := "<the secret>".

Definition response (body : string) : Response := mk_response 200 body body.

(** A world in which the secret decodes to [secret], the texts of
    [docs] decode as given, the site serves [pages] by URL and the clock
    reads [clock]. *)
Definition world (secret : PyVal) (docs : gmap string PyVal)
    (pages : gmap string Response) (clock : list Event → datetime)
  : World :=
  mk_world
    (λ s, if String.eqb s secret_text then Some secret else docs !! s)
    (λ _, "<object>")
    env
    (λ _ _ _, Ok (<["SecretString" := PStr secret_text]> ∅))
    (λ _ r, match pages !! url r with
            | Some resp => Ok resp
            | None => Err (LibraryError "ConnectionError")
            end)
    clock
    (λ _ _ _ _, None).

(** The state after the call to Secrets Manager, from [initial]. *)
Definition fetched : State :=
  emit (SecretsGet "us-east-1" "atlassian/backups/credentials") initial.

Definition noon : datetime := mk_datetime 2025 1 2 3 4 5 0.

(** A world whose secret lacks a field. *)
Definition no_token : World := world bad_secret ∅ ∅ (λ _, noon).

(** A clock that stays within the second of [noon] and shows as many
    microseconds as calls have been made. *)
Definition ticking (l : list Event) : datetime :=
  mk_datetime 2025 1 2 3 4 5 (Z.of_nat (length l) mod 1000000).

(** A clock that shows as many seconds as calls have been made. *)
Definition stepping (l : list Event) : datetime :=
  mk_datetime 2025 1 2 3 4 (Z.of_nat (length l) mod 60) 0.

(** A Confluence site that accepts the run-backup request. *)
Definition accepting : World :=
  world good_secret ∅
    (<["https://example.atlassian.net/wiki/rest/obm/1.0/runbackup"
         := response "OK"]> ∅)
    (λ _, noon).

(** The event with [includeAttachments] set to [v]. *)
Definition include (v : PyVal) : PyVal :=
  PDict (<["includeAttachments" := v]> ∅).

Definition site_name : string := "example.atlassian.net".
Definition credentials : PyVal * PyVal := (email, api_token).

(** A Confluence site whose progress endpoint reports [status] and the
    file [backup.zip]. *)
Definition confluence (status : string) (clock : list Event → datetime)
  : World :=
  let body := json_text "currentStatus" status "fileName" "backup.zip" in
  world good_secret
    (<[body := json_object "currentStatus" status "fileName" "backup.zip"]> ∅)
    (<["https://example.atlassian.net/wiki/rest/obm/1.0/getprogress.json"
         := response body]>
     (<["https://example.atlassian.net/wiki/download/backup.zip"
         := response "<archive>"]> ∅))
    clock.

(** A Jira site whose last task is [42], reported with [status] and the
    result [export.zip]. *)
Definition jira (status : string) (clock : list Event → datetime) : World :=
  let body := json_text "status" status "result" "export.zip" in
  world good_secret
    (<[body := json_object "status" status "result" "export.zip"]> ∅)
    (<["https://example.atlassian.net/rest/backup/1/export/lastTaskId"
         := response "42"]>
     (<["https://example.atlassian.net/rest/backup/1/export/getProgress?taskId=42"
         := response body]>
     (<["https://example.atlassian.net/plugins/servlet/export.zip"
         := response "<archive>"]> ∅)))
    clock.

(** Two invocations of the Confluence download, one after the other,
    under the clock [clock]. *)
Definition first_run (clock : list Event → datetime)
  : Result PyVal * State :=
  download_handler Confluence (confluence "COMPLETE" clock)
    PNone PNone initial.

Definition second_run (clock : list Event → datetime)
  : Result PyVal * State :=
  download_handler Confluence (confluence "COMPLETE" clock)
    PNone PNone (first_run clock).2.

(** The log as it was when the clock was read: all but the upload. *)
Definition at_clock_reading (run : Result PyVal * State) : list Event :=
  removelast (log run.2).

End Example.

(** ** The download workflows, stage by stage *)

(** The stage that yields the locator: the poll, preceded in Jira by the
    lookup of the task id. *)
Definition locate (p : Product) (w : World) (credentials : PyVal * PyVal)
    (site_name : string) : M PyVal :=
  match p with
  | Confluence => ConfluenceDownload.get_download_url w credentials site_name
  | Jira =>
      task_id ← JiraDownload.get_task_id w credentials site_name;
      JiraDownload.get_download_url w credentials site_name task_id
  end.

(** The URL of the download request for a locator. *)
Definition download_url_of (p : Product) (site_name locator : string)
  : string :=
  match p with
  | Confluence => "https://" +:+ site_name +:+ "/wiki/download/" +:+ locator
  | Jira => "https://" +:+ site_name +:+ "/plugins/servlet/" +:+ locator
  end.

(** A download entry point in two parts: everything up to the locator,
    and the transfer of the file it names. *)
Definition front (p : Product) (w : World)
  : M (PyVal * PyVal * string * PyVal) :=
  credentials ← get_credentials w;
  site_name ← get_site_name w;
  locator ← locate p w credentials site_name;
  mret (credentials, site_name, locator).

Definition transfer (p : Product) (w : World)
    (found : PyVal * PyVal * string * PyVal) : M PyVal :=
  let '(credentials, site_name, locator) := found in
  backup_file ← fetch w
    (download_url_of p site_name (format_value w locator)) credentials;
  filename ← upload_named w (name_prefix p) backup_file;
  mret (success_result filename).

(** [keeps_s3 m]: [m] leaves S3 as it found it. *)
Definition keeps_s3 {A} (m : M A) : Prop :=
  ∀ σ r σ', m σ = (r, σ') → s3 σ' = s3 σ.

(** The number of calls of a kind in a list of calls. *)
Definition count_calls (kind : Event → bool) (evs : list Event) : nat :=
  length (List.filter kind evs).

Definition is_secrets_call (e : Event) : bool :=
  match e with SecretsGet _ _ => true | _ => false end.

(** The most site requests a run of an entry point can make. *)
Definition request_budget (p : EntryPoint) : nat :=
  match p with
  | ConfluenceDownloadEntry => 2
  | JiraDownloadEntry => 3
  | ConfluenceTriggerEntry => 1
  end.

(** A call that, if it is a site request, goes by [https] to the host
    named in [SITE_NAME], with the method [m]. *)
Definition to_configured_site (w : World) (m : Method) (e : Event) : Prop :=
  match e with
  | Http req =>
      method req = m ∧
      ∃ site_name path,
        environ w !! "SITE_NAME" = Some site_name ∧
        url req = "https://" +:+ site_name +:+ "/" +:+ path
  | _ => True
  end.

(** What goes wrong with a request made after the calls [l], if
    anything: the exception the site raises, or the [HTTPError] of a 4xx
    or 5xx status. *)
Definition refusal (w : World) (l : list Event) (req : Request)
  : option exn :=
  match site w l req with
  | Err e => Some e
  | Ok resp =>
      if (400 <=? status_code resp) && (status_code resp <? 600)
      then Some (HTTPError (status_code resp))
      else None
  end.

(** [checked w m]: in every run of [m], a request that goes wrong is the
    last call of the run, and the run fails with what went wrong. *)
Definition checked {A} (w : World) (m : M A) : Prop :=
  ∀ σ r σ', m σ = (r, σ') →
    ∃ evs, log σ' = log σ ++ evs ∧
      ∀ before req after e,
        evs = before ++ Http req :: after →
        refusal w (log σ ++ before) req = Some e →
        after = [] ∧ r = Err e.

(** Lexicographic combination of two comparisons. *)
Definition lexi (c rest : comparison) : comparison :=
  match c with
  | Eq => rest
  | _ => c
  end.

(** The order of two clock readings, down to the second. *)
Definition compare_seconds (t1 t2 : datetime) : comparison :=
  lexi (year t1 ?= year t2)
    (lexi (month t1 ?= month t2)
       (lexi (day t1 ?= day t2)
          (lexi (hour t1 ?= hour t2)
             (lexi (minute t1 ?= minute t2) (second t1 ?= second t2))))).

(** Worlds in which something is missing or fails. *)
Module Faulty.

(** [w] without the environment variable [k]. *)
Definition without_env (k : string) (w : World) : World :=
  mk_world (json_loads w) (str_other w) (delete k (environ w))
    (secretsmanager w) (site w) (utc_clock w) (s3_upload w).


(** [w] with Secrets Manager answering [resp]. *)
Definition with_secret_response (resp : Result (gmap string PyVal))
  : World :=
  mk_world (json_loads Example.no_token) (str_other Example.no_token)
    Example.env (λ _ _ _, resp) (site Example.no_token)
    (utc_clock Example.no_token) (s3_upload Example.no_token).

(** The example Confluence site with the download answered by the status
    [code]. *)
Definition confluence_download_status (code : Z) : World :=
  Example.world Example.good_secret
    (<[json_text "currentStatus" "COMPLETE" "fileName" "backup.zip"
         := json_object "currentStatus" "COMPLETE" "fileName" "backup.zip"]> ∅)
    (<["https://example.atlassian.net/wiki/rest/obm/1.0/getprogress.json"
         := Example.response
              (json_text "currentStatus" "COMPLETE" "fileName" "backup.zip")]>
     (<["https://example.atlassian.net/wiki/download/backup.zip"
         := mk_response code "Not Found" ""]> ∅))
    (λ _, Example.noon).






(** The answer of Secrets Manager in the example worlds, and the fields
    of the secret that lacks its token. *)
Definition secret_response : gmap string PyVal :=
  <["SecretString" := PStr Example.secret_text]> ∅.

Definition email_only : gmap string PyVal := <["email" := Example.email]> ∅.

End Faulty.
(** * Properties *)

(** ** Running the monad *)

Lemma bind_ok {A B} (m : M A) (f : A → M B) σ a σ1 :
  m σ = (Ok a, σ1) → (m ≫= f) σ = f a σ1.
Proof. intros H. unfold mbind, M_bind. by rewrite H. Qed.

Lemma bind_err {A B} (m : M A) (f : A → M B) σ e σ1 :
  m σ = (Err e, σ1) → (m ≫= f) σ = (Err e, σ1).
Proof. intros H. unfold mbind, M_bind. by rewrite H. Qed.

Lemma ret_bind {A B} (a : A) (f : A → M B) σ : (mret a ≫= f) σ = f a σ.
Proof. reflexivity. Qed.

Lemma bind_inv {A B} (m : M A) (f : A → M B) σ r σ' :
  (m ≫= f) σ = (r, σ') →
  (∃ a σ1, m σ = (Ok a, σ1) ∧ f a σ1 = (r, σ')) ∨
  (∃ e, m σ = (Err e, σ') ∧ r = Err e).
Proof.
  unfold mbind, M_bind. destruct (m σ) as [[a|e] σ1]; intros H.
  - left. by exists a, σ1.
  - right. exists e. by inversion H.
Qed.

Lemma raise_for_status_ok resp σ :
  status_ok resp → raise_for_status resp σ = (Ok tt, σ).
Proof.
  unfold status_ok, raise_for_status. intros H.
  destruct (400 <=? status_code resp) eqn:E1;
    destruct (status_code resp <? 600) eqn:E2; simpl; try done.
  apply Z.leb_le in E1. apply Z.ltb_lt in E2. lia.
Qed.

Lemma raise_for_status_inv resp σ r σ' :
  raise_for_status resp σ = (r, σ') →
  σ' = σ ∧ (r = Ok tt ∧ status_ok resp ∨
            r = Err (HTTPError (status_code resp))).
Proof.
  unfold status_ok, raise_for_status.
  destruct (400 <=? status_code resp) eqn:E1;
    destruct (status_code resp <? 600) eqn:E2; simpl;
    intros [= <- <-]; split; try done; try (by right); left; split; try done.
  - apply Z.ltb_ge in E2. lia.
  - apply Z.leb_gt in E1. lia.
  - apply Z.leb_gt in E1. lia.
Qed.

Lemma os_environ_inv w k σ r σ' :
  os_environ w k σ = (r, σ') →
  σ' = σ ∧ (r = Err (KeyError k) ∧ environ w !! k = None ∨
            ∃ v, r = Ok v ∧ environ w !! k = Some v).
Proof.
  unfold os_environ. destruct (environ w !! k) as [v|];
    intros [= <- <-]; split; eauto.
Qed.


Lemma lift_inv {A} (x : Result A) σ r σ' :
  lift x σ = (r, σ') → σ' = σ ∧ r = x.
Proof. by intros [= <- <-]. Qed.

Lemma print_value_ok label v σ :
  printable v = true → print_value label v σ = (Ok tt, σ).
Proof. unfold print_value. by intros ->. Qed.

Lemma print_value_refused label v σ :
  printable v = false → print_value label v σ = (Err UnicodeEncodeError, σ).
Proof. unfold print_value. by intros ->. Qed.

Lemma print_value_inv label v σ r σ' :
  print_value label v σ = (r, σ') →
  σ' = σ ∧ (printable v = true ∧ r = Ok tt ∨
            printable v = false ∧ r = Err UnicodeEncodeError).
Proof.
  unfold print_value. destruct (printable v); intros [= <- <-]; eauto.
Qed.

Lemma json_loads_val_inv w v σ r σ' :
  json_loads_val w v σ = (r, σ') →
  σ' = σ ∧ ((∃ s j, v = PStr s ∧ json_loads w s = Some j ∧ r = Ok j) ∨
            (∃ e, r = Err e)).
Proof.
  unfold json_loads_val. destruct v; try (intros [= <- <-]; eauto).
  destruct (json_loads w s) eqn:E; intros [= <- <-]; split; eauto 6.
Qed.

(** ** The credential fetch *)

(** A credential fetch makes no site request and never touches S3: it
    either fails before calling Secrets Manager or appends that one call
    to the log. *)
Lemma get_credentials_log w σ r σ1 :
  get_credentials w σ = (r, σ1) →
  (σ1 = σ ∧ ∃ e, r = Err e) ∨
  (∃ region secret_id, σ1 = emit (SecretsGet region secret_id) σ).
Proof.
  unfold get_credentials, get_secret. intros H.
  apply bind_inv in H as [(secret & σa & H & Hk)|(e & H & ->)].
  - right.
    apply bind_inv in Hk as [(x & σb & Hx & Hk)|(e & Hx & ->)];
      apply lift_inv in Hx as [-> _];
      [apply bind_inv in Hk as [(y & σc & Hy & Hk)|(e & Hy & ->)];
       apply lift_inv in Hy as [-> _]; [injection Hk as _ <-|]|].
    all: apply bind_inv in H as [(rg & σ2 & H1 & H)|(e' & H1 & ?)];
      apply os_environ_inv in H1 as [-> _]; try done.
    all: apply bind_inv in H as [(sid & σ3 & H2 & H)|(e' & H2 & ?)];
      apply os_environ_inv in H2 as [-> _]; try done.
    all: apply bind_inv in H as [(rsp & σ4 & H3 & H)|(e' & H3 & ?)];
      try done; injection H3 as _ <-.
    all: apply bind_inv in H as [(ss & σ5 & H4 & H)|(e' & H4 & ?)];
      apply lift_inv in H4 as [-> _]; try done.
    all: apply json_loads_val_inv in H as [-> _]; eauto.
  - apply bind_inv in H as [(rg & σ2 & H1 & H)|(e' & H1 & ?)];
      apply os_environ_inv in H1 as [-> _]; [|left; eauto].
    apply bind_inv in H as [(sid & σ3 & H2 & H)|(e' & H2 & ?)];
      apply os_environ_inv in H2 as [-> _]; [|left; eauto].
    apply bind_inv in H as [(rsp & σ4 & H3 & H)|(e' & H3 & ?)];
      injection H3 as _ <-; [|right; eauto].
    apply bind_inv in H as [(ss & σ5 & H4 & H)|(e' & H4 & ?)];
      apply lift_inv in H4 as [-> _]; [|right; eauto].
    apply json_loads_val_inv in H as [-> _]. right; eauto.
Qed.

(** ** What a computation may add to the log *)

Lemma produces_ret {A} P (a : A) : produces P (mret a).
Proof. intros σ r σ' [= <- <-]. exists []. by rewrite app_nil_r. Qed.

Lemma produces_raise {A} P e : produces P (@raise A e).
Proof. intros σ r σ' [= <- <-]. exists []. by rewrite app_nil_r. Qed.

Lemma produces_lift {A} P (x : Result A) : produces P (lift x).
Proof. intros σ r σ' [= <- <-]. exists []. by rewrite app_nil_r. Qed.

Lemma produces_bind {A B} P (m : M A) (f : A → M B) :
  produces P m → (∀ a, produces P (f a)) → produces P (m ≫= f).
Proof.
  intros Hm Hf σ r σ' H.
  apply bind_inv in H as [(a & σ1 & H1 & H2)|(e & H1 & _)].
  - destruct (Hm _ _ _ H1) as (l1 & E1 & F1).
    destruct (Hf _ _ _ _ H2) as (l2 & E2 & F2).
    exists (l1 ++ l2). rewrite E2, E1, <- app_assoc. split; [done|].
    by apply Forall_app.
  - eauto.
Qed.

Lemma produces_os_environ P w k : produces P (os_environ w k).
Proof.
  unfold os_environ. destruct (environ w !! k);
    [apply produces_ret|apply produces_raise].
Qed.

Lemma produces_raise_for_status P resp : produces P (raise_for_status resp).
Proof.
  unfold raise_for_status.
  destruct (_ && _); [apply produces_raise|apply produces_ret].
Qed.

Lemma produces_json_loads_val P w v : produces P (json_loads_val w v).
Proof.
  unfold json_loads_val. destruct v; try apply produces_raise.
  destruct (json_loads w s); [apply produces_ret|apply produces_raise].
Qed.

Lemma produces_print_text P text : produces P (print_text text).
Proof. apply produces_ret. Qed.

Lemma produces_print_value P label v : produces P (print_value label v).
Proof.
  unfold print_value. destruct (printable v);
    [apply produces_ret|apply produces_raise].
Qed.

Lemma produces_send (P : Event → Prop) w req :
  P (Http req) → produces P (send w req).
Proof. intros HP σ r σ' [= <- <-]. exists [Http req]. split; [done|]. by constructor. Qed.

Lemma produces_datetime_utcnow P w : produces P (datetime_utcnow w).
Proof. intros σ r σ' [= <- <-]. exists []. by rewrite app_nil_r. Qed.

Lemma produces_s3_upload_fileobj (P : Event → Prop) w body bucket key :
  P (S3Upload bucket key body) →
  produces P (s3_upload_fileobj w body bucket key).
Proof.
  intros HP σ r σ'. unfold s3_upload_fileobj.
  destruct (s3_upload _ _ _ _ _); intros [= <- <-];
    exists [S3Upload bucket key body]; split; try done; by constructor.
Qed.

Create HintDb produces.
#[global] Hint Resolve produces_ret produces_raise produces_lift
  produces_os_environ produces_raise_for_status produces_json_loads_val
  produces_datetime_utcnow produces_print_text produces_print_value
  : produces.

(** Goes through a straight-line computation bind by bind. *)
Ltac produces_steps :=
  repeat first
    [ apply produces_bind; [|intros ?]
    | apply produces_send
    | apply produces_s3_upload_fileobj
    | match goal with |- produces _ (if ?b then _ else _) => destruct b end
    | solve [auto with produces] ].

Lemma entry_point_unfold p w event context :
  entry_point p w event context =
  get_credentials w ≫= after_credentials p w event.
Proof. by destruct p. Qed.

Lemma after_credentials_made_with p w event credentials :
  produces (made_with credentials) (after_credentials p w event credentials).
Proof.
  destruct p; simpl;
    unfold get_site_name, ConfluenceDownload.get_download_url,
      ConfluenceDownload.download_file, ConfluenceDownload.upload_to_s3,
      JiraDownload.get_task_id, JiraDownload.get_download_url,
      JiraDownload.download_file, JiraDownload.upload_to_s3,
      ConfluenceTrigger.trigger_backup,
      response_json, requests_get, requests_post;
    produces_steps; done.
Qed.

(** Unfolds the monad and the primitives, leaving the answers of the
    world to be rewritten. *)
Ltac run :=
  cbv beta iota zeta delta
    [get_credentials get_secret get_site_name mbind M_bind mret M_ret
     os_environ get_secret_value lift raise json_loads_val response_json
     requests_get requests_post send datetime_utcnow s3_upload_fileobj
     print_text].

(** X3. The ways a credential fetch fails: Secrets Manager raises, or the
    decoded secret has no [email], or it has no [api_token]. *)
Lemma get_credentials_failures w σ region secret_id :
  environ w !! "CREDENTIALS_SECRET_REGION_NAME" = Some region →
  environ w !! "CREDENTIALS_SECRET_NAME" = Some secret_id →
  let σ1 := emit (SecretsGet region secret_id) σ in
  (∀ e, secretsmanager w (log σ) region secret_id = Err e →
        get_credentials w σ = (Err e, σ1)) ∧
  (∀ resp s d,
      secretsmanager w (log σ) region secret_id = Ok resp →
      resp !! "SecretString" = Some (PStr s) →
      json_loads w s = Some (PDict d) →
      (d !! "email" = None →
       get_credentials w σ = (Err (KeyError "email"), σ1)) ∧
      (is_Some (d !! "email") → d !! "api_token" = None →
       get_credentials w σ = (Err (KeyError "api_token"), σ1))).
Proof.
  intros Hr Hi σ1. subst σ1.
  split; [intros e He|intros resp s d Hresp Hs Hj; split; [intros Hd|intros [x Hx] Hd]].
  all: run; rewrite Hr, Hi; unfold py_getitem_str.
  - by rewrite He.
  - by rewrite Hresp, Hs, Hj, Hd.
  - by rewrite Hresp, Hs, Hj, Hx, Hd.
Qed.

(** ** The two download files as instances of the common shape *)

Lemma confluence_instances w credentials site_name :
  ConfluenceDownload.get_download_url w credentials site_name =
    poll w ("https://" +:+ site_name +:+ "/wiki/rest/obm/1.0/getprogress.json")
      credentials "currentStatus" "COMPLETE" "fileName" ∧
  (∀ download_url,
     ConfluenceDownload.download_file w credentials site_name download_url =
       (print_value "Downloading from: " download_url ≫= λ _,
        fetch w ("https://" +:+ site_name +:+ "/wiki/download/" +:+
                 format_value w download_url) credentials)) ∧
  ConfluenceDownload.upload_to_s3 w = upload_named w "confluence-backup-".
Proof. done. Qed.

Lemma jira_instances w credentials site_name :
  (∀ task_id,
     JiraDownload.get_download_url w credentials site_name task_id =
       poll w ("https://" +:+ site_name +:+
               "/rest/backup/1/export/getProgress?taskId=" +:+ task_id)
         credentials "status" "Success" "result") ∧
  (∀ download_url,
     JiraDownload.download_file w credentials site_name download_url =
       (print_value "Downloading from: " download_url ≫= λ _,
        fetch w ("https://" +:+ site_name +:+ "/plugins/servlet/" +:+
                 format_value w download_url) credentials)) ∧
  JiraDownload.upload_to_s3 w = upload_named w "jira-backup-".
Proof. done. Qed.

(** A locator that has been printed once prints again. *)
Lemma printed_then {A B} label v (m : M A) (k : A → M B) σ :
  printable v = true →
  ((print_value label v ≫= λ _, m) ≫= k) σ = (m ≫= k) σ.
Proof.
  intros H. unfold mbind, M_bind. by rewrite (print_value_ok _ _ _ H).
Qed.

(** ** One poll *)




Section Poll.
Variables (w : World) (u : string) (credentials : PyVal * PyVal).
Variables (status_key token locator_key : string).

Let req := get_request u credentials false.
Let the_poll := poll w u credentials status_key token locator_key.

(** A poll makes exactly one request, whatever it returns. *)
Lemma poll_state σ r σ' :
  the_poll σ = (r, σ') → σ' = emit (Http req) σ.
Proof.
  subst the_poll req.
  unfold poll, requests_get, send, get_request, response_json.
  intros H.
  apply bind_inv in H as [(resp & σ1 & [= _ <-] & H)|(e & [= _ <-] & _)];
    [|done].
  apply bind_inv in H as [(? & σ2 & H1 & H)|(e & H1 & _)];
    apply raise_for_status_inv in H1 as [-> _]; [|done].
  apply bind_inv in H as [(j & σ3 & H1 & H)|(e & H1 & _)];
    apply json_loads_val_inv in H1 as [-> _]; [|done].
  apply bind_inv in H as [(st & σ4 & H1 & H)|(e & H1 & _)];
    apply lift_inv in H1 as [-> _]; [|done].
  apply bind_inv in H as [(? & σ5 & H1 & H)|(e & H1 & _)];
    apply print_value_inv in H1 as [-> _]; [|done].
  destruct (py_ne_str st token); [by injection H as _ <-|].
  apply bind_inv in H as [(j' & σ6 & H1 & H)|(e & H1 & _)];
    apply json_loads_val_inv in H1 as [-> _]; [|done].
  apply bind_inv in H as [(loc & σ7 & H1 & H)|(e & H1 & _)];
    apply lift_inv in H1 as [-> _]; [|done].
  apply bind_inv in H as [(? & σ8 & H1 & H)|(e & H1 & _)];
    apply print_value_inv in H1 as [-> _]; [|done].
  by injection H as _ <-.
Qed.

Section Answered.
Variables (σ : State) (resp : Response) (j status : PyVal).
Hypothesis Hsite : site w (log σ) req = Ok resp.
Hypothesis Hcode : status_ok resp.
Hypothesis Hjson : json_loads w (text resp) = Some j.
Hypothesis Hstatus : py_getitem_str j status_key = Ok status.




End Answered.


Lemma poll_ok_printed σ loc σ' :
  the_poll σ = (Ok loc, σ') → printable loc = true.
Proof.
  intros H. subst the_poll.
  unfold poll, requests_get, send, response_json in *.
  apply bind_inv in H as [(resp & σ1 & _ & H)|(e & _ & [=])].
  apply bind_inv in H as [(? & σ2 & _ & H)|(e & _ & [=])].
  apply bind_inv in H as [(j & σ3 & _ & H)|(e & _ & [=])].
  apply bind_inv in H as [(st & σ4 & _ & H)|(e & _ & [=])].
  apply bind_inv in H as [(? & σ5 & _ & H)|(e & _ & [=])].
  destruct (py_ne_str st token); [by injection H|].
  apply bind_inv in H as [(j' & σ6 & _ & H)|(e & _ & [=])].
  apply bind_inv in H as [(l & σ7 & _ & H)|(e & _ & [=])].
  apply bind_inv in H as [(? & σ8 & H1 & H)|(e & _ & [=])].
  apply print_value_inv in H1 as [-> [[Hp _]|[_ [=]]]].
  by injection H as <-.
Qed.
End Poll.

(** ** The pollers compare with the exact literal, once (C3) *)




(** ** No transfer before success (C1) *)



Lemma fetch_state w u credentials σ r σ' :
  fetch w u credentials σ = (r, σ') →
  σ' = emit (Http (get_request u credentials true)) σ.
Proof.
  unfold fetch, requests_get, send, get_request. intros H.
  apply bind_inv in H as [(resp & σ1 & [= _ <-] & H)|(e & [= _ <-] & _)];
    [|done].
  apply bind_inv in H as [(? & σ2 & H1 & H)|(e & H1 & _)];
    apply raise_for_status_inv in H1 as [-> _]; [|done].
  by injection H as _ <-.
Qed.

Lemma upload_named_inv w prefix body σ r σ' :
  upload_named w prefix body σ = (r, σ') →
  let name := object_name prefix (utc_clock w (log σ)) in
  (r = Err (KeyError "S3_BUCKET_NAME") ∧ σ' = σ) ∨
  ∃ bucket,
    environ w !! "S3_BUCKET_NAME" = Some bucket ∧
    log σ' = log σ ++ [S3Upload bucket name body] ∧
    ((r = Ok name ∧ s3 σ' = <[(bucket, name) := body]> (s3 σ)) ∨
     (∃ e, r = Err e ∧ s3 σ' = s3 σ)).
Proof.
  unfold upload_named. run. intros H.
  set (name := object_name prefix (utc_clock w (log σ))) in *.
  destruct (environ w !! "S3_BUCKET_NAME") as [bucket|]; [right|left].
  - exists bucket. split; [done|].
    destruct (s3_upload w (log σ) bucket name body);
      injection H as <- <-; split; try done; [right|left]; eauto.
  - by injection H as <- <-.
Qed.



(** The task-id lookup makes one request and returns the text of the
    answer as it is. *)
Lemma get_task_id_inv w credentials site_name σ r σ' :
  JiraDownload.get_task_id w credentials site_name σ = (r, σ') →
  let req := get_request
    ("https://" +:+ site_name +:+ "/rest/backup/1/export/lastTaskId")
    credentials false in
  σ' = emit (Http req) σ ∧
  ∀ task_id, r = Ok task_id →
    ∃ resp, site w (log σ) req = Ok resp ∧ status_ok resp ∧
            task_id = text resp.
Proof.
  change (JiraDownload.get_task_id w credentials site_name) with
    (status_resp ← requests_get w
       ("https://" +:+ site_name +:+ "/rest/backup/1/export/lastTaskId")
       credentials false;
     raise_for_status status_resp;;
     mret (text status_resp)).
  unfold requests_get, send, get_request.
  intros H.
  apply bind_inv in H as [(resp & σ1 & [= Hs <-] & H)|(e & [= _ <-] & ->)];
    [|done].
  apply bind_inv in H as [(? & σ2 & H1 & H)|(e & H1 & ->)];
    apply raise_for_status_inv in H1 as [-> H1]; [|done].
  injection H as <- <-. split; [done|]. intros tid [= <-].
  destruct H1 as [[_ Hok]|[=]]. eauto.
Qed.

(** The download after a poll that returned: the locator was printed by
    the poll, so the print that opens [download_file] passes. *)
Lemma confluence_download_printed {B} w credentials site_name locator
    (k : string → M B) σ :
  printable locator = true →
  (ConfluenceDownload.download_file w credentials site_name locator ≫= k) σ
  = (fetch w ("https://" +:+ site_name +:+ "/wiki/download/" +:+
              format_value w locator) credentials ≫= k) σ.
Proof.
  destruct (confluence_instances w credentials site_name) as (_ & -> & _).
  apply printed_then.
Qed.

Lemma jira_download_printed {B} w credentials site_name locator
    (k : string → M B) σ :
  printable locator = true →
  (JiraDownload.download_file w credentials site_name locator ≫= k) σ
  = (fetch w ("https://" +:+ site_name +:+ "/plugins/servlet/" +:+
              format_value w locator) credentials ≫= k) σ.
Proof.
  destruct (jira_instances w credentials site_name) as (_ & -> & _).
  apply printed_then.
Qed.

(** After a poll [Hpoll] that returned: drops the print that opens the
    download in [H]. *)
Ltac printed Hpoll H :=
  let Hp := fresh "Hp" in
  pose proof (poll_ok_printed _ _ _ _ _ _ _ _ _ Hpoll) as Hp;
  first [rewrite (confluence_download_printed _ _ _ _ _ _ Hp) in H
        |rewrite (jira_download_printed _ _ _ _ _ _ Hp) in H].






(** ** The download request (C4) *)





(** ** The Jira workflow from end to end (C5) *)


Lemma success_result_fields name :
  py_getitem_str (success_result name) "status" = Ok (PStr "success") ∧
  py_getitem_str (success_result name) "filename" = Ok (PStr name).
Proof.
  unfold success_result, py_getitem_str.
  by rewrite lookup_insert_eq, lookup_insert_ne, lookup_insert_eq.
Qed.



(** ** Object names (C2) *)

Lemma strftime_same_second t1 t2 :
  same_second t1 t2 → strftime t1 = strftime t2.
Proof.
  unfold same_second, strftime.
  by intros (-> & -> & -> & -> & -> & ->).
Qed.

Lemma produces_get_credentials (P : Event → Prop) w :
  (∀ region secret_id, P (SecretsGet region secret_id)) →
  produces P (get_credentials w).
Proof.
  intros HP σ r σ' H.
  apply get_credentials_log in H as [[-> _]|(rg & sid & ->)].
  - exists []. by rewrite app_nil_r.
  - exists [SecretsGet rg sid]. split; [done|]. by repeat constructor.
Qed.

Section ObjectName.
Variables (w : World) (t : datetime) (prefix : string).
Hypothesis Hclock : ∀ l, same_second (utc_clock w l) t.

Lemma object_name_clock l :
  object_name prefix (utc_clock w l) = object_name prefix t.
Proof. unfold object_name. by rewrite (strftime_same_second _ t). Qed.

Lemma upload_named_as body :
  produces (uploads_as (object_name prefix t)) (upload_named w prefix body).
Proof.
  intros σ r σ' H.
  apply upload_named_inv in H as [[_ ->]|(b & _ & -> & _)].
  - exists []. by rewrite app_nil_r.
  - eexists. split; [done|]. repeat constructor.
    apply object_name_clock.
Qed.

(** A transfer that returns has stored the stream under the name made
    from the clock reading and returns that name. *)
Lemma transfer_ok_inv u credentials σ v σ' :
  (fetch w u credentials ≫= λ backup_file,
   upload_named w prefix backup_file ≫= λ filename,
   mret (success_result filename)) σ = (Ok v, σ') →
  v = success_result (object_name prefix t) ∧
  ∃ bucket body,
    s3 σ' = <[(bucket, object_name prefix t) := body]> (s3 σ).
Proof.
  intros H.
  apply bind_inv in H as [(body & σ1 & H1 & H)|(e & _ & [=])].
  apply fetch_state in H1 as ->.
  apply bind_inv in H as [(name & σ2 & H1 & H)|(e & _ & [=])].
  injection H as <- <-.
  apply upload_named_inv in H1
    as [[[=] _]|(b & _ & _ & [[[= ->] Hs]|(e & [=] & _)])].
  rewrite object_name_clock in Hs |- *. split; [done|].
  exists b, body. by rewrite Hs.
Qed.
End ObjectName.

(** C2. The object name is [prefix ++ strftime(clock) ++ .zip], the
    prefix being that of the product.  At the reading
    2025-01-02T03:04:05Z (any microsecond) that is
    [confluence-backup-2025-01-02T03-04-05Z.zip] for Confluence and
    [jira-backup-2025-01-02T03-04-05Z.zip] for Jira.  In every run of a
    download entry point whose clock reads [t] down to the second, every
    upload attempted is under the name of [t], and a run that returns
    has stored the stream under that name and returns it as [filename]. *)
Theorem object_name_from_clock :
  (∀ us,
     object_name "confluence-backup-" (mk_datetime 2025 1 2 3 4 5 us)
       = "confluence-backup-2025-01-02T03-04-05Z.zip" ∧
     object_name "jira-backup-" (mk_datetime 2025 1 2 3 4 5 us)
       = "jira-backup-2025-01-02T03-04-05Z.zip") ∧
  (∀ (w : World) (t : datetime) event context σ r σ',
     (∀ l, same_second (utc_clock w l) t) →
     (ConfluenceDownload.lambda_handler w event context σ = (r, σ') →
      let name := object_name "confluence-backup-" t in
      (∃ evs, log σ' = log σ ++ evs ∧ Forall (uploads_as name) evs) ∧
      (∀ v, r = Ok v →
         v = success_result name ∧
         ∃ bucket body, s3 σ' = <[(bucket, name) := body]> (s3 σ))) ∧
     (JiraDownload.lambda_handler w event context σ = (r, σ') →
      let name := object_name "jira-backup-" t in
      (∃ evs, log σ' = log σ ++ evs ∧ Forall (uploads_as name) evs) ∧
      (∀ v, r = Ok v →
         v = success_result name ∧
         ∃ bucket body, s3 σ' = <[(bucket, name) := body]> (s3 σ)))).
Proof.
  split; [done|].
  intros w t event context σ r σ' Hclock. split; intros H name.
  - split.
    + revert H. generalize σ r σ'. change (produces (uploads_as name)
        (ConfluenceDownload.lambda_handler w event context)).
      unfold ConfluenceDownload.lambda_handler.
      apply produces_bind; [by apply produces_get_credentials|intros c].
      apply produces_bind; [apply produces_os_environ|intros sn].
      destruct (confluence_instances w c sn) as (-> & Ef & ->).
      apply produces_bind;
        [unfold poll, requests_get, response_json; produces_steps; done
        |intros loc].
      rewrite Ef.
      apply produces_bind;
        [unfold fetch, requests_get; produces_steps; done|intros bf].
      apply produces_bind; [by apply upload_named_as|intros fn].
      apply produces_ret.
    + intros v ->. unfold ConfluenceDownload.lambda_handler in H.
      apply bind_inv in H as [(c & σ1 & Hc & H)|(e & _ & [=])].
      apply get_credentials_log in Hc as [[_ [e [=]]]|(rg & sid & ->)].
      apply bind_inv in H as [(sn & σ2 & H1 & H)|(e & _ & [=])].
      apply os_environ_inv in H1 as [-> _].
      destruct (confluence_instances w c sn) as (Ep & Ef & Eu).
      apply bind_inv in H as [(loc & σ3 & H1 & H)|(e & _ & [=])].
      rewrite Ep in H1. printed H1 H. apply poll_state in H1 as ->.
      rewrite Eu in H.
      by apply (transfer_ok_inv w t _ Hclock) in H.
  - split.
    + revert H. generalize σ r σ'. change (produces (uploads_as name)
        (JiraDownload.lambda_handler w event context)).
      unfold JiraDownload.lambda_handler.
      apply produces_bind; [by apply produces_get_credentials|intros c].
      apply produces_bind; [apply produces_os_environ|intros sn].
      destruct (jira_instances w c sn) as (Ep & Ef & ->).
      apply produces_bind;
        [unfold JiraDownload.get_task_id, requests_get; produces_steps; done
        |intros tid].
      rewrite Ep.
      apply produces_bind;
        [unfold poll, requests_get, response_json; produces_steps; done
        |intros loc].
      rewrite Ef.
      apply produces_bind;
        [unfold fetch, requests_get; produces_steps; done|intros bf].
      apply produces_bind; [by apply upload_named_as|intros fn].
      apply produces_ret.
    + intros v ->. unfold JiraDownload.lambda_handler in H.
      apply bind_inv in H as [(c & σ1 & Hc & H)|(e & _ & [=])].
      apply get_credentials_log in Hc as [[_ [e [=]]]|(rg & sid & ->)].
      apply bind_inv in H as [(sn & σ2 & H1 & H)|(e & _ & [=])].
      apply os_environ_inv in H1 as [-> _].
      destruct (jira_instances w c sn) as (Ep & Ef & Eu).
      apply bind_inv in H as [(tid & σ3 & H1 & H)|(e & _ & [=])].
      apply get_task_id_inv in H1 as [-> _].
      apply bind_inv in H as [(loc & σ4 & H1 & H)|(e & _ & [=])].
      rewrite Ep in H1. printed H1 H. apply poll_state in H1 as ->.
      rewrite Eu in H.
      by apply (transfer_ok_inv w t _ Hclock) in H.
Qed.

(** The two example sites with the clock at 2025-01-02T03:04:05Z. *)
Lemma object_name_from_clock_witness :
  ((ConfluenceDownload.lambda_handler
      (Example.confluence "COMPLETE" (λ _, Example.noon))
      PNone PNone initial).1
     = Ok (success_result "confluence-backup-2025-01-02T03-04-05Z.zip") ∧
   ∃ evs,
     log (ConfluenceDownload.lambda_handler
            (Example.confluence "COMPLETE" (λ _, Example.noon))
            PNone PNone initial).2 = log initial ++ evs ∧
     Forall (uploads_as "confluence-backup-2025-01-02T03-04-05Z.zip") evs) ∧
  ((JiraDownload.lambda_handler
      (Example.jira "Success" (λ _, Example.noon))
      PNone PNone initial).1
     = Ok (success_result "jira-backup-2025-01-02T03-04-05Z.zip") ∧
   ∃ evs,
     log (JiraDownload.lambda_handler
            (Example.jira "Success" (λ _, Example.noon))
            PNone PNone initial).2 = log initial ++ evs ∧
     Forall (uploads_as "jira-backup-2025-01-02T03-04-05Z.zip") evs).
Proof.
  split; (split; [vm_compute; reflexivity|]).
  - apply (proj1 (proj2 object_name_from_clock
      (Example.confluence "COMPLETE" (λ _, Example.noon)) Example.noon
      PNone PNone initial _ _ ltac:(intros l; by repeat split))
      (surjective_pairing _)).
  - apply (proj2 (proj2 object_name_from_clock
      (Example.jira "Success" (λ _, Example.noon)) Example.noon
      PNone PNone initial _ _ ltac:(intros l; by repeat split))
      (surjective_pairing _)).
Defined.

(** ** The trigger (C6, C9) *)

Import ConfluenceTrigger.

Lemma are_attachments_included_dict (d : gmap string PyVal) :
  are_attachments_included (PDict d) =
    match d !! "includeAttachments" with
    | Some v => Ok (if truthy v then "true" else "false")
    | None => Ok "false"
    end.
Proof.
  unfold are_attachments_included, py_contains_str, py_getitem_str.
  destruct (d !! "includeAttachments") as [v|] eqn:E.
  - rewrite bool_decide_true by eauto. by destruct (truthy v).
  - rewrite bool_decide_false; [done|]. by intros [? [=]].
Qed.

(** Whatever the event, the flag is [true] or [false] when there is one. *)
Lemma are_attachments_included_flag event flag :
  are_attachments_included event = Ok flag → flag = "true" ∨ flag = "false".
Proof.
  unfold are_attachments_included.
  destruct (py_contains_str event _) as [[|]|]; try (intros [= <-]; by right).
  destruct (py_getitem_str event _) as [v|]; [|done].
  destruct (truthy v); intros [= <-]; eauto.
Qed.

(** With credentials, a site name and a flag, the trigger makes the
    run-backup request and nothing else. *)
Lemma trigger_run w event context σ credentials σ1 site_name flag :
  get_credentials w σ = (Ok credentials, σ1) →
  environ w !! "SITE_NAME" = Some site_name →
  are_attachments_included event = Ok flag →
  ∃ r, lambda_handler w event context σ =
         (r, emit (Http (trigger_request site_name credentials flag)) σ1).
Proof.
  intros Hc Hsn Hflag. unfold lambda_handler.
  rewrite (bind_ok _ _ _ _ _ Hc).
  erewrite bind_ok by (unfold lift; by rewrite Hflag).
  unfold trigger_backup, trigger_request. run. rewrite Hsn.
  fold (trigger_body flag). fold trigger_headers.
  destruct (site w (log σ1) _) as [resp|e]; [|eauto].
  destruct (raise_for_status resp _) as [[[]|e] σ2] eqn:E;
    apply raise_for_status_inv in E as [-> _]; eauto.
Qed.

Lemma trigger_calls w event context :
  produces trigger_call (lambda_handler w event context).
Proof.
  unfold lambda_handler.
  apply produces_bind; [by apply produces_get_credentials|intros c].
  intros σ r σ' H.
  apply bind_inv in H as [(flag & σ1 & H1 & H)|(e & H1 & _)];
    apply lift_inv in H1 as [-> H1];
    [|exists []; by rewrite app_nil_r].
  symmetry in H1. apply are_attachments_included_flag in H1.
  revert H. generalize σ r σ'.
  change (produces trigger_call
            (trigger_backup w c flag ≫= λ _,
             mret (PDict (<["status" := PStr "success"]> ∅)))).
  unfold trigger_backup, requests_post. produces_steps.
  by eexists _, c, flag.
Qed.

(** C6. Every site request the trigger makes, whatever the event, is the
    POST to the run-backup path whose body is the text
    [{"cbAttachments":"F", "exportToCloud":"true"}] with [F] either [true]
    or [false]; [exportToCloud] is always the string [true].  With
    credentials and a site name at hand, an event whose
    [includeAttachments] is [True] sends the body with [F = true], and an
    event without the key, or with [False], sends it with [F = false]. *)
Theorem trigger_body_flag :
  (∀ (w : World) event context σ r σ',
     lambda_handler w event context σ = (r, σ') →
     ∃ evs, log σ' = log σ ++ evs ∧ Forall trigger_call evs) ∧
  (∀ (w : World) (d : gmap string PyVal) context σ credentials σ1 site_name,
     get_credentials w σ = (Ok credentials, σ1) →
     environ w !! "SITE_NAME" = Some site_name →
     (d !! "includeAttachments" = Some (PBool true) →
      ∃ r, lambda_handler w (PDict d) context σ =
        (r, emit (Http (trigger_request site_name credentials "true")) σ1)) ∧
     (d !! "includeAttachments" = None ∨
      d !! "includeAttachments" = Some (PBool false) →
      ∃ r, lambda_handler w (PDict d) context σ =
        (r, emit (Http (trigger_request site_name credentials "false")) σ1))).
Proof.
  split; [intros w event context; apply trigger_calls|].
  intros w d context σ c σ1 sn Hc Hsn. split.
  - intros Hd. eapply trigger_run; try done.
    by rewrite are_attachments_included_dict, Hd.
  - intros [Hd|Hd]; (eapply trigger_run; try done);
      by rewrite are_attachments_included_dict, Hd.
Qed.

(** The events [{"includeAttachments": true}] and [{}] on a site that
    accepts the request. *)
Lemma trigger_body_flag_witness :
  (∃ r, lambda_handler Example.accepting (Example.include (PBool true))
          PNone initial =
        (r, emit (Http (trigger_request Example.site_name
                          Example.credentials "true")) Example.fetched)) ∧
  (∃ r, lambda_handler Example.accepting (PDict ∅) PNone initial =
        (r, emit (Http (trigger_request Example.site_name
                          Example.credentials "false")) Example.fetched)).
Proof.
  split.
  - apply (proj1 (proj2 trigger_body_flag Example.accepting
      (<["includeAttachments" := PBool true]> ∅) PNone initial
      Example.credentials Example.fetched Example.site_name
      ltac:(vm_compute; reflexivity) ltac:(vm_compute; reflexivity))).
    vm_compute; reflexivity.
  - apply (proj2 (proj2 trigger_body_flag Example.accepting
      ∅ PNone initial
      Example.credentials Example.fetched Example.site_name
      ltac:(vm_compute; reflexivity) ltac:(vm_compute; reflexivity))).
    left. vm_compute; reflexivity.
Defined.

(** C9. For an event that is a dictionary, the flag is [true] exactly
    when [includeAttachments] is present with a truthy value, and [false]
    exactly when it is absent or present with a falsy value.  The string
    [false] and the number 1 are truthy; [False], 0, the empty string and
    [None] are falsy.  The flag so decided is the [cbAttachments] of the
    body the trigger sends. *)
Theorem attachment_flag_is_truthiness :
  (∀ d : gmap string PyVal,
     (are_attachments_included (PDict d) = Ok "true" ↔
      ∃ v, d !! "includeAttachments" = Some v ∧ truthy v = true) ∧
     (are_attachments_included (PDict d) = Ok "false" ↔
      d !! "includeAttachments" = None ∨
      ∃ v, d !! "includeAttachments" = Some v ∧ truthy v = false)) ∧
  (truthy (PStr "false") = true ∧ truthy (PInt 1) = true ∧
   truthy (PBool false) = false ∧ truthy (PInt 0) = false ∧
   truthy (PStr "") = false ∧ truthy PNone = false) ∧
  (∀ (w : World) (d : gmap string PyVal) context σ credentials σ1 site_name v,
     get_credentials w σ = (Ok credentials, σ1) →
     environ w !! "SITE_NAME" = Some site_name →
     d !! "includeAttachments" = Some v →
     ∃ r, lambda_handler w (PDict d) context σ =
       (r, emit (Http (trigger_request site_name credentials
                         (if truthy v then "true" else "false"))) σ1)).
Proof.
  split; [|split; [done|]].
  - intros d. rewrite are_attachments_included_dict.
    destruct (d !! "includeAttachments") as [v|] eqn:E.
    + destruct (truthy v) eqn:T; split; split;
        try (intros [=]); try (intros (? & [= <-] & ?)); try congruence;
        try (intros [[=]|(? & [= <-] & ?)]; congruence); eauto.
    + split; split; try (intros [=]); try (intros (? & [=] & ?)); eauto.
  - intros w d context σ c σ1 sn v Hc Hsn Hd.
    eapply trigger_run; try done.
    by rewrite are_attachments_included_dict, Hd.
Qed.

(** The event [{"includeAttachments": "false"}]: the string is truthy, so
    the body carries [true]. *)
Lemma attachment_flag_is_truthiness_witness :
  ∃ r, lambda_handler Example.accepting (Example.include (PStr "false"))
         PNone initial =
       (r, emit (Http (trigger_request Example.site_name
                         Example.credentials "true")) Example.fetched).
Proof.
  apply (proj2 (proj2 attachment_flag_is_truthiness) Example.accepting
    (<["includeAttachments" := PStr "false"]> ∅) PNone initial
    Example.credentials Example.fetched Example.site_name (PStr "false")
    ltac:(vm_compute; reflexivity) ltac:(vm_compute; reflexivity)
    ltac:(vm_compute; reflexivity)).
Defined.

(** ** Two invocations (C8) *)

Lemma digit_inj a b : digit a = digit b → a mod 10 = b mod 10.
Proof.
  unfold digit. intros H. apply (f_equal nat_of_ascii) in H.
  pose proof (Z.mod_pos_bound a 10). pose proof (Z.mod_pos_bound b 10).
  rewrite !nat_ascii_embedding in H by lia. lia.
Qed.

Lemma pad2_inj a b :
  0 <= a < 100 → 0 <= b < 100 → pad2 a = pad2 b → a = b.
Proof.
  unfold pad2. intros Ha Hb [= H1 H2].
  apply digit_inj in H1, H2. Z.to_euclidean_division_equations. lia.
Qed.

Lemma pad4_inj a b :
  0 <= a < 10000 → 0 <= b < 10000 → pad4 a = pad4 b → a = b.
Proof.
  unfold pad4. intros Ha Hb [= H1 H2 H3 H4].
  apply digit_inj in H1, H2, H3, H4.
  Z.to_euclidean_division_equations. lia.
Qed.

Lemma append_inv_head (p a b : string) : p +:+ a = p +:+ b → a = b.
Proof. induction p as [|c p IH]; simpl; [done|]. intros [= H]. by apply IH. Qed.

(** On clock readings, the formatted timestamp tells the second and
    nothing more. *)
Lemma strftime_inj t1 t2 :
  valid_datetime t1 → valid_datetime t2 →
  strftime t1 = strftime t2 → same_second t1 t2.
Proof.
  unfold valid_datetime, same_second.
  intros (?&?&?&?&?&?&?) (?&?&?&?&?&?&?) Heq.
  unfold strftime in Heq.
  assert (pad4 (year t1) = pad4 (year t2) ∧
          pad2 (month t1) = pad2 (month t2) ∧
          pad2 (day t1) = pad2 (day t2) ∧
          pad2 (hour t1) = pad2 (hour t2) ∧
          pad2 (minute t1) = pad2 (minute t2) ∧
          pad2 (second t1) = pad2 (second t2)) as (Hy&Hm&Hd&Hh&Hi&Hs).
  { unfold pad4, pad2 in *. cbn [String.append] in Heq.
    injection Heq as ?????????????.
    split; [|split; [|split; [|split; [|split]]]]; congruence. }
  apply pad4_inj in Hy; [|lia..].
  apply pad2_inj in Hm, Hd, Hh, Hi, Hs; lia.
Qed.

Lemma object_name_same prefix t1 t2 :
  valid_datetime t1 → valid_datetime t2 →
  object_name prefix t1 = object_name prefix t2 ↔ same_second t1 t2.
Proof.
  intros H1 H2. unfold object_name. split.
  - intros H. apply append_inv_head in H. apply strftime_inj; try done.
    unfold strftime, pad4, pad2 in *. cbn [String.append] in H |- *.
    injection H as ?????????????. congruence.
  - by intros ->%strftime_same_second.
Qed.

(** Nothing the program does reads S3. *)
Lemma blind_ret {A} (a : A) : s3_blind (mret a).
Proof. by intros σ1 σ2 H. Qed.

Lemma blind_raise {A} e : s3_blind (@raise A e).
Proof. by intros σ1 σ2 H. Qed.

Lemma blind_lift {A} (x : Result A) : s3_blind (lift x).
Proof. by intros σ1 σ2 H. Qed.

Lemma blind_bind {A B} (m : M A) (f : A → M B) :
  s3_blind m → (∀ a, s3_blind (f a)) → s3_blind (m ≫= f).
Proof.
  intros Hm Hf σ1 σ2 H. destruct (Hm σ1 σ2 H) as [Hr Hl].
  unfold mbind, M_bind.
  destruct (m σ1) as [[a1|e1] σ1'], (m σ2) as [[a2|e2] σ2'];
    simpl in *; try done; injection Hr as ->; [by apply Hf|done].
Qed.

Lemma blind_os_environ w k : s3_blind (os_environ w k).
Proof.
  unfold os_environ. destruct (environ w !! k);
    [apply blind_ret|apply blind_raise].
Qed.

Lemma blind_raise_for_status resp : s3_blind (raise_for_status resp).
Proof.
  unfold raise_for_status.
  destruct (_ && _); [apply blind_raise|apply blind_ret].
Qed.

Lemma blind_json_loads_val w v : s3_blind (json_loads_val w v).
Proof.
  unfold json_loads_val. destruct v; try apply blind_raise.
  destruct (json_loads w s); [apply blind_ret|apply blind_raise].
Qed.

Lemma blind_get_secret_value w region secret_id :
  s3_blind (get_secret_value w region secret_id).
Proof. intros σ1 σ2 H. unfold get_secret_value. simpl. by rewrite H. Qed.

Lemma blind_send w req : s3_blind (send w req).
Proof. intros σ1 σ2 H. unfold send. simpl. by rewrite H. Qed.

Lemma blind_datetime_utcnow w : s3_blind (datetime_utcnow w).
Proof. intros σ1 σ2 H. unfold datetime_utcnow. simpl. by rewrite H. Qed.

Lemma blind_s3_upload_fileobj w body bucket key :
  s3_blind (s3_upload_fileobj w body bucket key).
Proof.
  intros σ1 σ2 H. unfold s3_upload_fileobj. rewrite H.
  destruct (s3_upload w (log σ2) bucket key body); simpl; by rewrite H.
Qed.

Lemma blind_print_text text : s3_blind (print_text text).
Proof. apply blind_ret. Qed.

Lemma blind_print_value label v : s3_blind (print_value label v).
Proof.
  unfold print_value. destruct (printable v);
    [apply blind_ret|apply blind_raise].
Qed.

#[global] Hint Resolve blind_ret blind_raise blind_lift blind_os_environ
  blind_raise_for_status blind_json_loads_val blind_get_secret_value
  blind_send blind_datetime_utcnow blind_s3_upload_fileobj
  blind_print_text blind_print_value : produces.

Ltac blind_steps :=
  repeat first
    [ apply blind_bind; [|intros ?]
    | match goal with |- s3_blind (if ?b then _ else _) => destruct b end
    | solve [auto with produces] ].

Lemma download_handler_blind p w event context :
  s3_blind (download_handler p w event context).
Proof.
  destruct p; simpl;
    unfold ConfluenceDownload.lambda_handler, JiraDownload.lambda_handler,
      get_credentials, get_secret, get_site_name,
      ConfluenceDownload.get_download_url, ConfluenceDownload.download_file,
      ConfluenceDownload.upload_to_s3, JiraDownload.get_task_id,
      JiraDownload.get_download_url, JiraDownload.download_file,
      JiraDownload.upload_to_s3, response_json, requests_get;
    blind_steps.
Qed.

(** A download entry point that returns has read the clock just before
    its upload, has stored the stream under the name of that reading, and
    returns that name. *)
Lemma download_ok_inv p w event context σ v σ' :
  download_handler p w event context σ = (Ok v, σ') →
  ∃ bucket body l,
    let name := object_name (name_prefix p) (utc_clock w l) in
    v = success_result name ∧
    log σ' = l ++ [S3Upload bucket name body] ∧
    s3 σ' = <[(bucket, name) := body]> (s3 σ).
Proof.
  assert (∀ u c prefix σ0,
    (fetch w u c ≫= λ backup_file,
     upload_named w prefix backup_file ≫= λ filename,
     mret (success_result filename)) σ0 = (Ok v, σ') →
    ∃ bucket body l,
      let name := object_name prefix (utc_clock w l) in
      v = success_result name ∧
      log σ' = l ++ [S3Upload bucket name body] ∧
      s3 σ' = <[(bucket, name) := body]> (s3 σ0)) as Htail.
  { intros u c prefix σ0 H.
    apply bind_inv in H as [(body & σ1 & H1 & H)|(e & _ & [=])].
    apply fetch_state in H1 as ->.
    apply bind_inv in H as [(name & σ2 & H1 & H)|(e & _ & [=])].
    injection H as <- <-.
    apply upload_named_inv in H1
      as [[[=] _]|(b & _ & Hl & [[[= ->] Hs]|(e & [=] & _)])].
    by exists b, body, (log (emit (Http (get_request u c true)) σ0)). }
  destruct p; simpl; intros H.
  - unfold ConfluenceDownload.lambda_handler in H.
    apply bind_inv in H as [(c & σ1 & Hc & H)|(e & _ & [=])].
    apply get_credentials_log in Hc as [[_ [e [=]]]|(rg & sid & ->)].
    apply bind_inv in H as [(sn & σ2 & H1 & H)|(e & _ & [=])].
    apply os_environ_inv in H1 as [-> _].
    destruct (confluence_instances w c sn) as (Ep & Ef & Eu).
    apply bind_inv in H as [(loc & σ3 & H1 & H)|(e & _ & [=])].
    rewrite Ep in H1. printed H1 H. apply poll_state in H1 as ->.
    rewrite Eu in H. by apply Htail in H.
  - unfold JiraDownload.lambda_handler in H.
    apply bind_inv in H as [(c & σ1 & Hc & H)|(e & _ & [=])].
    apply get_credentials_log in Hc as [[_ [e [=]]]|(rg & sid & ->)].
    apply bind_inv in H as [(sn & σ2 & H1 & H)|(e & _ & [=])].
    apply os_environ_inv in H1 as [-> _].
    destruct (jira_instances w c sn) as (Ep & Ef & Eu).
    apply bind_inv in H as [(tid & σ3 & H1 & H)|(e & _ & [=])].
    apply get_task_id_inv in H1 as [-> _].
    apply bind_inv in H as [(loc & σ4 & H1 & H)|(e & _ & [=])].
    rewrite Ep in H1. printed H1 H. apply poll_state in H1 as ->.
    rewrite Eu in H. by apply Htail in H.
Qed.

(** C8 as stated fails on two invocations within one second: the clock
    readings differ (by microseconds), both invocations succeed, both
    return the same object name, and after the second S3 holds a single
    object, the first having been replaced. *)
Lemma same_second_same_name :
  Example.ticking
      (Example.at_clock_reading (Example.first_run Example.ticking))
    ≠ Example.ticking
        (Example.at_clock_reading (Example.second_run Example.ticking)) ∧
  (Example.first_run Example.ticking).1
    = Ok (success_result "confluence-backup-2025-01-02T03-04-05Z.zip") ∧
  (Example.second_run Example.ticking).1
    = Ok (success_result "confluence-backup-2025-01-02T03-04-05Z.zip") ∧
  s3 (Example.first_run Example.ticking).2
    = <[("backups", "confluence-backup-2025-01-02T03-04-05Z.zip")
          := "<archive>"]> ∅ ∧
  s3 (Example.second_run Example.ticking).2
    = s3 (Example.first_run Example.ticking).2.
Proof.
  split; [vm_compute; discriminate|].
  split; [|split; [|split]]; vm_compute; reflexivity.
Qed.

(** C8, amended.  The object name tells the clock reading down to the
    second and no further: two readings give the same name exactly when
    they agree down to the second.  When a download entry point is run
    twice in succession and both runs return, each run has stored its
    stream under the name of its own clock reading; the two names differ
    exactly when the readings differ in the second or above, and then S3
    holds both objects after the second run.  No run looks at what S3
    holds: its result and its calls are the same whatever is stored. *)
Theorem names_differ_when_seconds_differ :
  (∀ prefix t1 t2,
     valid_datetime t1 → valid_datetime t2 →
     (object_name prefix t1 = object_name prefix t2 ↔ same_second t1 t2)) ∧
  (∀ (p : Product) (w : World) event1 context1 event2 context2
     σ0 v1 σ1 v2 σ2,
     (∀ l, valid_datetime (utc_clock w l)) →
     download_handler p w event1 context1 σ0 = (Ok v1, σ1) →
     download_handler p w event2 context2 σ1 = (Ok v2, σ2) →
     ∃ bucket1 bucket2 body1 body2 l1 l2,
       let n1 := object_name (name_prefix p) (utc_clock w l1) in
       let n2 := object_name (name_prefix p) (utc_clock w l2) in
       v1 = success_result n1 ∧ v2 = success_result n2 ∧
       log σ1 = l1 ++ [S3Upload bucket1 n1 body1] ∧
       log σ2 = l2 ++ [S3Upload bucket2 n2 body2] ∧
       (n1 ≠ n2 ↔ ¬ same_second (utc_clock w l1) (utc_clock w l2)) ∧
       (n1 ≠ n2 →
        s3 σ2 !! (bucket1, n1) = Some body1 ∧
        s3 σ2 !! (bucket2, n2) = Some body2)) ∧
  (∀ (p : Product) (w : World) event context,
     s3_blind (download_handler p w event context)).
Proof.
  split; [apply object_name_same|].
  split; [|apply download_handler_blind].
  intros p w event1 context1 event2 context2 σ0 v1 σ1 v2 σ2 Hvalid H1 H2.
  apply download_ok_inv in H1 as (b1 & body1 & l1 & -> & Hl1 & Hs1).
  apply download_ok_inv in H2 as (b2 & body2 & l2 & -> & Hl2 & Hs2).
  exists b1, b2, body1, body2, l1, l2. cbn zeta.
  split; [done|]. split; [done|]. split; [done|]. split; [done|].
  split; [by rewrite object_name_same|].
  intros Hne. rewrite Hs2, Hs1. split.
  - rewrite lookup_insert_ne by congruence. by rewrite lookup_insert_eq.
  - by rewrite lookup_insert_eq.
Qed.

(** Two invocations under the clock [stepping], which shows second 3 at
    the first upload and second 7 at the next. *)
Lemma names_differ_when_seconds_differ_witness :
  ∃ bucket1 bucket2 body1 body2 l1 l2,
    let n1 := object_name "confluence-backup-" (Example.stepping l1) in
    let n2 := object_name "confluence-backup-" (Example.stepping l2) in
    success_result "confluence-backup-2025-01-02T03-04-03Z.zip"
      = success_result n1 ∧
    success_result "confluence-backup-2025-01-02T03-04-07Z.zip"
      = success_result n2 ∧
    log (Example.first_run Example.stepping).2
      = l1 ++ [S3Upload bucket1 n1 body1] ∧
    log (Example.second_run Example.stepping).2
      = l2 ++ [S3Upload bucket2 n2 body2] ∧
    (n1 ≠ n2 ↔ ¬ same_second (Example.stepping l1) (Example.stepping l2)) ∧
    (n1 ≠ n2 →
     s3 (Example.second_run Example.stepping).2 !! (bucket1, n1) = Some body1 ∧
     s3 (Example.second_run Example.stepping).2 !! (bucket2, n2) = Some body2).
Proof.
  apply (proj1 (proj2 names_differ_when_seconds_differ) Confluence
    (Example.confluence "COMPLETE" Example.stepping)
    PNone PNone PNone PNone initial
    (success_result "confluence-backup-2025-01-02T03-04-03Z.zip")
    (Example.first_run Example.stepping).2
    (success_result "confluence-backup-2025-01-02T03-04-07Z.zip")
    (Example.second_run Example.stepping).2).
  - intros l. unfold valid_datetime. cbn.
    pose proof (Z.mod_pos_bound (Z.of_nat (length l)) 60). lia.
  - vm_compute; reflexivity.
  - vm_compute; reflexivity.
Defined.

(** ** Credentials come first (C7) *)

(** C7. In each of the three entry points, when the credential fetch fails
    (for whatever reason: the environment, Secrets Manager, the decoding,
    a missing [email] or [api_token]), the entry point fails with the
    same exception in the same state, and nothing it added to the log is
    a request to the site.  Moreover, in every run that does make a site
    request, the credential fetch succeeded, its call to Secrets Manager
    is the first call of the run, and every later call is made with the
    credentials it returned. *)
Theorem credentials_precede_site_requests :
  ∀ (p : EntryPoint) (w : World) (event context : PyVal) (σ : State),
    (∀ e σ1,
        get_credentials w σ = (Err e, σ1) →
        entry_point p w event context σ = (Err e, σ1) ∧
        ∃ evs, log σ1 = log σ ++ evs ∧
               Forall (λ x, is_site_request x = false) evs) ∧
    (∀ r σ' evs,
        entry_point p w event context σ = (r, σ') →
        log σ' = log σ ++ evs →
        Exists (λ x, is_site_request x = true) evs →
        ∃ credentials region secret_id rest,
          get_credentials w σ =
            (Ok credentials, emit (SecretsGet region secret_id) σ) ∧
          evs = SecretsGet region secret_id :: rest ∧
          Forall (made_with credentials) rest).
Proof.
  intros p w event context σ. rewrite entry_point_unfold. split.
  - intros e σ1 H. split; [by apply bind_err|].
    apply get_credentials_log in H as [[-> _]|(rg & sid & ->)].
    + exists []. by rewrite app_nil_r.
    + exists [SecretsGet rg sid]. split; [done|]. by repeat constructor.
  - intros r σ' evs H Hlog Hex.
    apply bind_inv in H as [(c & σ1 & Hc & Hk)|(e & Hc & ->)].
    + pose proof Hc as Hc'.
      apply get_credentials_log in Hc' as [[_ [e ?]]|(rg & sid & ->)];
        [done|].
      apply after_credentials_made_with in Hk as (rest & Hrest & Hall).
      exists c, rg, sid, rest. split; [done|]. split; [|done].
      cbn [log emit] in Hrest. rewrite Hrest, <- app_assoc in Hlog.
      by apply app_inv_head in Hlog.
    + exfalso.
      apply get_credentials_log in Hc as [[-> _]|(rg & sid & ->)].
      * rewrite <- (app_nil_r (log σ)) in Hlog at 1.
        apply app_inv_head in Hlog as <-. by apply Exists_nil in Hex.
      * cbn [log emit] in Hlog. apply app_inv_head in Hlog as <-.
        apply Exists_cons in Hex as [Hex|Hex]; [done|].
        by apply Exists_nil in Hex.
Qed.

(** The entry points on a secret without [api_token]: the fetch fails and
    the log holds the call to Secrets Manager only. *)
Lemma credentials_precede_site_requests_witness :
  get_credentials Example.no_token initial
    = (Err (KeyError "api_token"), Example.fetched) ∧
  entry_point ConfluenceDownloadEntry Example.no_token PNone PNone initial
    = (Err (KeyError "api_token"), Example.fetched) ∧
  entry_point JiraDownloadEntry Example.no_token PNone PNone initial
    = (Err (KeyError "api_token"), Example.fetched) ∧
  entry_point ConfluenceTriggerEntry Example.no_token PNone PNone initial
    = (Err (KeyError "api_token"), Example.fetched).
Proof.
  split; [|split; [|split]]; [vm_compute; reflexivity|..].
  all: apply (proj1 (credentials_precede_site_requests _ Example.no_token
                       PNone PNone initial)); vm_compute; reflexivity.
Defined.

(** ** The download entry points do not read the event (C10) *)

(** C10. For any two events (and contexts), each download entry point
    run in the same world from the same state returns the same result and
    leaves the same state: the same log of outbound calls and the same
    contents of S3. *)
Theorem download_handlers_ignore_event :
  ∀ (w : World) (event1 event2 context1 context2 : PyVal) (σ : State),
    ConfluenceDownload.lambda_handler w event1 context1 σ =
    ConfluenceDownload.lambda_handler w event2 context2 σ ∧
    JiraDownload.lambda_handler w event1 context1 σ =
    JiraDownload.lambda_handler w event2 context2 σ.
Proof. intros. split; reflexivity. Qed.

(** * Further properties of the three files *)

(** ** Reading the secret *)

(** X1. [get_credentials] returns a pair exactly when the two environment
    variables are set, Secrets Manager answers with a [SecretString] that
    decodes, and the decoded value has both fields; the pair is then the
    [email] and the [api_token], in that order, and the one call made is
    to the region and the secret the environment names. *)
Theorem get_credentials_ok_iff :
  ∀ (w : World) σ email api_token σ',
    get_credentials w σ = (Ok (email, api_token), σ') ↔
    ∃ region secret_id resp s secret,
      environ w !! "CREDENTIALS_SECRET_REGION_NAME" = Some region ∧
      environ w !! "CREDENTIALS_SECRET_NAME" = Some secret_id ∧
      secretsmanager w (log σ) region secret_id = Ok resp ∧
      resp !! "SecretString" = Some (PStr s) ∧
      json_loads w s = Some secret ∧
      py_getitem_str secret "email" = Ok email ∧
      py_getitem_str secret "api_token" = Ok api_token ∧
      σ' = emit (SecretsGet region secret_id) σ.
Proof.
  intros w σ email api_token σ'. split.
  - unfold get_credentials, get_secret. intros H.
    apply bind_inv in H as [(secret & σa & H & Hk)|(e & _ & [=])].
    apply bind_inv in Hk as [(x & σb & Hx & Hk)|(e & _ & [=])].
    apply lift_inv in Hx as [-> Hx].
    apply bind_inv in Hk as [(y & σc & Hy & Hk)|(e & _ & [=])].
    apply lift_inv in Hy as [-> Hy]. injection Hk as <- <- <-.
    apply bind_inv in H as [(rg & σ2 & H1 & H)|(e' & _ & [=])].
    apply os_environ_inv in H1 as [-> [[[=] _]|(v & [= <-] & Hrg)]].
    apply bind_inv in H as [(sid & σ3 & H2 & H)|(e' & _ & [=])].
    apply os_environ_inv in H2 as [-> [[[=] _]|(v & [= <-] & Hsid)]].
    apply bind_inv in H as [(rsp & σ4 & H3 & H)|(e' & _ & [=])].
    injection H3 as H3 <-.
    apply bind_inv in H as [(ss & σ5 & H4 & H)|(e' & _ & [=])].
    apply lift_inv in H4 as [-> H4].
    apply json_loads_val_inv in H
      as [-> [(s & j & -> & Hj & [= <-])|[e [=]]]].
    exists rg, sid, rsp, s, secret. repeat split; try done.
    unfold py_getitem_str in H4.
    destruct (rsp !! "SecretString"); by inversion H4.
  - intros (rg & sid & rsp & s & secret & Hrg & Hsid & Hsm & Hs & Hj
            & He & Ht & ->).
    run. rewrite Hrg, Hsid, Hsm. unfold py_getitem_str at 1.
    by rewrite Hs, Hj, He, Ht.
Qed.

(** X2. Without [CREDENTIALS_SECRET_REGION_NAME] the fetch fails with the
    [KeyError] of that variable, the first thing it looks up.  Without
    [CREDENTIALS_SECRET_NAME] the fetch fails as well.  In both cases
    Secrets Manager is not called: the log and S3 are as they were. *)
Theorem get_credentials_needs_environment :
  ∀ (w : World) σ,
    (environ w !! "CREDENTIALS_SECRET_REGION_NAME" = None →
     get_credentials w σ
       = (Err (KeyError "CREDENTIALS_SECRET_REGION_NAME"), σ)) ∧
    (environ w !! "CREDENTIALS_SECRET_NAME" = None →
     ∃ e, get_credentials w σ = (Err e, σ)).
Proof.
  intros w σ. split.
  - intros H. run. by rewrite H.
  - intros H. run.
    destruct (environ w !! "CREDENTIALS_SECRET_REGION_NAME") as [rg|].
    + rewrite H. by eexists.
    + by eexists.
Qed.

Lemma get_credentials_needs_environment_witness :
  get_credentials
    (Faulty.without_env "CREDENTIALS_SECRET_REGION_NAME"
       (Faulty.without_env "CREDENTIALS_SECRET_NAME" Example.accepting))
    initial
    = (Err (KeyError "CREDENTIALS_SECRET_REGION_NAME"), initial) ∧
  ∃ e,
    get_credentials
      (Faulty.without_env "CREDENTIALS_SECRET_NAME" Example.accepting)
      initial
    = (Err e, initial).
Proof.
  split.
  - apply (proj1 (get_credentials_needs_environment _ initial)).
    vm_compute; reflexivity.
  - apply (proj2 (get_credentials_needs_environment _ initial)).
    vm_compute; reflexivity.
Defined.



(** Secrets Manager raising, and a secret without a field. *)
Lemma get_credentials_failures_witness :
  get_credentials
    (Faulty.with_secret_response (Err (LibraryError "ClientError"))) initial
    = (Err (LibraryError "ClientError"), Example.fetched) ∧
  get_credentials Example.no_token initial
    = (Err (KeyError "api_token"), Example.fetched).
Proof.
  split.
  - apply (proj1 (get_credentials_failures
      (Faulty.with_secret_response (Err (LibraryError "ClientError")))
      initial "us-east-1" "atlassian/backups/credentials"
      ltac:(vm_compute; reflexivity) ltac:(vm_compute; reflexivity))).
    vm_compute; reflexivity.
  - apply (proj2 (proj2 (get_credentials_failures
      Example.no_token initial "us-east-1" "atlassian/backups/credentials"
      ltac:(vm_compute; reflexivity) ltac:(vm_compute; reflexivity))
      Faulty.secret_response Example.secret_text Faulty.email_only
      ltac:(vm_compute; reflexivity) ltac:(vm_compute; reflexivity)
      ltac:(vm_compute; reflexivity))).
    + eexists. vm_compute; reflexivity.
    + vm_compute; reflexivity.
Defined.

(** ** The download workflows in two parts *)

Lemma download_handler_split p w event context σ :
  download_handler p w event context σ = (front p w ≫= transfer p w) σ.
Proof.
  destruct p; simpl;
    unfold ConfluenceDownload.lambda_handler, JiraDownload.lambda_handler,
      front, transfer, locate, mbind, M_bind.
  - destruct (get_credentials w σ) as [[c|e] σ1]; [|done].
    destruct (get_site_name w σ1) as [[sn|e] σ2]; [|done].
    destruct (ConfluenceDownload.get_download_url w c sn σ2)
      as [[loc|e] σ3] eqn:E; [|done].
    destruct (confluence_instances w c sn) as (Ep & _ & _).
    rewrite Ep in E. apply poll_ok_printed in E.
    unfold ConfluenceDownload.download_file, fetch, mbind, M_bind.
    by rewrite (print_value_ok _ _ _ E).
  - destruct (get_credentials w σ) as [[c|e] σ1]; [|done].
    destruct (get_site_name w σ1) as [[sn|e] σ2]; [|done].
    destruct (JiraDownload.get_task_id w c sn σ2) as [[tid|e] σ3]; [|done].
    destruct (JiraDownload.get_download_url w c sn tid σ3)
      as [[loc|e] σ4] eqn:E; [|done].
    destruct (jira_instances w c sn) as (Ep & _ & _).
    rewrite Ep in E. apply poll_ok_printed in E.
    unfold JiraDownload.download_file, fetch, mbind, M_bind.
    by rewrite (print_value_ok _ _ _ E).
Qed.

Lemma keeps_s3_bind {A B} (m : M A) (f : A → M B) :
  keeps_s3 m → (∀ a, keeps_s3 (f a)) → keeps_s3 (m ≫= f).
Proof.
  intros Hm Hf σ r σ' H.
  apply bind_inv in H as [(a & σ1 & H1 & H2)|(e & H1 & _)].
  - rewrite (Hf _ _ _ _ H2). by apply (Hm _ _ _ H1).
  - by apply (Hm _ _ _ H1).
Qed.

Lemma keeps_s3_pure {A} (m : M A) :
  (∀ σ, (m σ).2 = σ) → keeps_s3 m.
Proof.
  intros Hm σ r σ' H. specialize (Hm σ). rewrite H in Hm.
  simpl in Hm. by subst.
Qed.

Lemma keeps_s3_emit {A} (m : M A) e :
  (∀ σ, (m σ).2 = emit e σ) → keeps_s3 m.
Proof.
  intros Hm σ r σ' H. specialize (Hm σ). rewrite H in Hm.
  simpl in Hm. by subst.
Qed.

Lemma keeps_s3_os_environ w k : keeps_s3 (os_environ w k).
Proof.
  apply keeps_s3_pure. intros σ. unfold os_environ.
  by destruct (environ w !! k).
Qed.

Lemma keeps_s3_raise_for_status resp : keeps_s3 (raise_for_status resp).
Proof.
  apply keeps_s3_pure. intros σ. unfold raise_for_status.
  by destruct (_ && _).
Qed.

Lemma keeps_s3_json_loads_val w v : keeps_s3 (json_loads_val w v).
Proof.
  apply keeps_s3_pure. intros σ. unfold json_loads_val.
  destruct v; try done. by destruct (json_loads w s).
Qed.

Lemma keeps_s3_lift {A} (x : Result A) : keeps_s3 (lift x).
Proof. by apply keeps_s3_pure. Qed.

Lemma keeps_s3_ret {A} (a : A) : keeps_s3 (mret a).
Proof. by apply keeps_s3_pure. Qed.

Lemma keeps_s3_raise {A} e : keeps_s3 (@raise A e).
Proof. by apply keeps_s3_pure. Qed.

Lemma keeps_s3_send w req : keeps_s3 (send w req).
Proof. by apply (keeps_s3_emit _ (Http req)). Qed.

Lemma keeps_s3_get_secret_value w region secret_id :
  keeps_s3 (get_secret_value w region secret_id).
Proof. by apply (keeps_s3_emit _ (SecretsGet region secret_id)). Qed.

Lemma keeps_s3_print_text text : keeps_s3 (print_text text).
Proof. apply keeps_s3_ret. Qed.

Lemma keeps_s3_print_value label v : keeps_s3 (print_value label v).
Proof.
  unfold print_value. destruct (printable v);
    [apply keeps_s3_ret|apply keeps_s3_raise].
Qed.

Create HintDb keeps.
#[global] Hint Resolve keeps_s3_os_environ keeps_s3_raise_for_status
  keeps_s3_json_loads_val keeps_s3_lift keeps_s3_ret keeps_s3_raise
  keeps_s3_send keeps_s3_get_secret_value keeps_s3_print_text
  keeps_s3_print_value : keeps.

Ltac keeps_steps :=
  repeat first
    [ apply keeps_s3_bind; [|intros ?]
    | match goal with |- keeps_s3 (if ?b then _ else _) => destruct b end
    | solve [auto with keeps] ].

Lemma keeps_s3_get_credentials w : keeps_s3 (get_credentials w).
Proof. unfold get_credentials, get_secret. keeps_steps. Qed.

Lemma keeps_s3_fetch w u credentials : keeps_s3 (fetch w u credentials).
Proof. unfold fetch, requests_get. keeps_steps. Qed.

Lemma keeps_s3_front p w : keeps_s3 (front p w).
Proof.
  unfold front. apply keeps_s3_bind; [apply keeps_s3_get_credentials|].
  intros c. destruct p; simpl;
    unfold get_site_name, ConfluenceDownload.get_download_url,
      JiraDownload.get_task_id, JiraDownload.get_download_url,
      response_json, requests_get;
    keeps_steps.
Qed.

Lemma front_no_upload p w :
  produces (λ e, is_upload e = false) (front p w).
Proof.
  unfold front.
  apply produces_bind; [by apply produces_get_credentials|intros c].
  destruct p; simpl;
    unfold get_site_name, ConfluenceDownload.get_download_url,
      JiraDownload.get_task_id, JiraDownload.get_download_url,
      response_json, requests_get;
    produces_steps; done.
Qed.

(** A download that returns was answered with a stream and a status that
    passes. *)
Lemma fetch_ok_inv w u credentials σ body σ' :
  fetch w u credentials σ = (Ok body, σ') →
  ∃ resp,
    site w (log σ) (get_request u credentials true) = Ok resp ∧
    status_ok resp ∧ body = raw resp ∧
    σ' = emit (Http (get_request u credentials true)) σ.
Proof.
  unfold fetch, requests_get, send, get_request. intros H.
  apply bind_inv in H as [(resp & σ1 & [= Hs <-] & H)|(e & _ & [=])].
  apply bind_inv in H as [(? & σ2 & H1 & H)|(e & _ & [=])].
  apply raise_for_status_inv in H1 as [-> [[_ Hok]|[=]]].
  injection H as <- <-. by exists resp.
Qed.

(** ** What reaches S3 *)

(** How a transfer can end, with the log it leaves. *)
Lemma transfer_inv p w credentials site_name locator σ r σ' :
  transfer p w (credentials, site_name, locator) σ = (r, σ') →
  let dreq := get_request
    (download_url_of p site_name (format_value w locator)) credentials true in
  (log σ' = log σ ++ [Http dreq] ∧ s3 σ' = s3 σ ∧ ∃ e, r = Err e) ∨
  ∃ dresp bucket,
    let name := object_name (name_prefix p)
                  (utc_clock w (log σ ++ [Http dreq])) in
    site w (log σ) dreq = Ok dresp ∧ status_ok dresp ∧
    environ w !! "S3_BUCKET_NAME" = Some bucket ∧
    log σ' = log σ ++ [Http dreq; S3Upload bucket name (raw dresp)] ∧
    ((r = Ok (success_result name) ∧
      s3 σ' = <[(bucket, name) := raw dresp]> (s3 σ)) ∨
     (∃ e, r = Err e ∧ s3 σ' = s3 σ)).
Proof.
  intros H dreq. unfold transfer in H.
  apply bind_inv in H as [(body & σ1 & H1 & H)|(e & H1 & ->)].
  - apply fetch_ok_inv in H1 as (dresp & Hsite & Hcode & -> & ->).
    fold dreq in H, Hsite.
    apply bind_inv in H as [(name & σ2 & H1 & H)|(e & H1 & ->)];
      [injection H as <- <-|];
      apply upload_named_inv in H1
        as [[Hr ->]|(b & Hb & Hlog & [[Hr Hs]|(e' & Hr & Hs)])];
      try discriminate Hr.
    + injection Hr as ->. right. exists dresp, b. cbn zeta.
      cbn [log emit] in Hlog. rewrite <- app_assoc in Hlog.
      split; [exact Hsite|]. split; [exact Hcode|]. split; [exact Hb|].
      split; [exact Hlog|]. left. by rewrite Hs.
    + left. eauto.
    + right. exists dresp, b. cbn zeta.
      cbn [log emit] in Hlog. rewrite <- app_assoc in Hlog.
      split; [exact Hsite|]. split; [exact Hcode|]. split; [exact Hb|].
      split; [exact Hlog|]. right. exists e'. injection Hr as ->.
      split; [reflexivity|by rewrite Hs].
  - apply fetch_state in H1 as ->. left. eauto.
Qed.

(** X5. Whatever a download entry point uploads is the stream of a download
    request that was answered with a passing status just before; the
    upload goes to the bucket named in [S3_BUCKET_NAME], under the name
    made from the clock as read after the download, and is the last call
    of the run and its only upload. *)
Theorem uploads_only_what_was_downloaded :
  ∀ (p : Product) (w : World) event context σ r σ' evs bucket key body,
    download_handler p w event context σ = (r, σ') →
    log σ' = log σ ++ evs →
    S3Upload bucket key body ∈ evs →
    ∃ before dreq dresp,
      evs = before ++ [Http dreq; S3Upload bucket key body] ∧
      Forall (λ e, is_upload e = false) before ∧
      stream dreq = true ∧
      site w (log σ ++ before) dreq = Ok dresp ∧
      status_ok dresp ∧
      body = raw dresp ∧
      environ w !! "S3_BUCKET_NAME" = Some bucket ∧
      key = object_name (name_prefix p)
              (utc_clock w (log σ ++ before ++ [Http dreq])).
Proof.
  intros p w event context σ r σ' evs bucket key body H Hlog Hin.
  rewrite download_handler_split in H.
  apply bind_inv in H as [([[c sn] loc] & σ1 & Hf & Ht)|(e & Hf & _)];
    apply front_no_upload in Hf as (l1 & Hl1 & Hno).
  - apply transfer_inv in Ht
      as [(Hl & _)|(dresp & b & Hsite & Hcode & Hb & Hl & _)];
      rewrite Hl, Hl1, <- app_assoc in Hlog;
      apply app_inv_head in Hlog as <-;
      apply elem_of_app in Hin as [Hin|Hin];
      try (rewrite Forall_forall in Hno; by apply Hno in Hin).
    + apply list_elem_of_singleton in Hin. discriminate Hin.
    + apply elem_of_cons in Hin as [Hin|Hin]; [discriminate Hin|].
      apply list_elem_of_singleton in Hin. injection Hin as -> -> ->.
      eexists l1, _, dresp. rewrite Hl1 in Hsite.
      split; [reflexivity|]. split; [exact Hno|]. split; [reflexivity|].
      split; [exact Hsite|]. split; [exact Hcode|]. split; [reflexivity|].
      split; [exact Hb|]. by rewrite app_assoc.
  - rewrite Hl1 in Hlog. apply app_inv_head in Hlog as <-.
    rewrite Forall_forall in Hno. by apply Hno in Hin.
Qed.

Lemma uploads_only_what_was_downloaded_witness :
  ∃ before dreq dresp,
    [SecretsGet "us-east-1" "atlassian/backups/credentials";
     Http (get_request
             "https://example.atlassian.net/wiki/rest/obm/1.0/getprogress.json"
             Example.credentials false);
     Http (get_request
             "https://example.atlassian.net/wiki/download/backup.zip"
             Example.credentials true);
     S3Upload "backups" "confluence-backup-2025-01-02T03-04-05Z.zip"
       "<archive>"]
      = before ++
        [Http dreq;
         S3Upload "backups" "confluence-backup-2025-01-02T03-04-05Z.zip"
           "<archive>"] ∧
    Forall (λ e, is_upload e = false) before ∧
    stream dreq = true ∧
    site (Example.confluence "COMPLETE" (λ _, Example.noon))
      (log initial ++ before) dreq = Ok dresp ∧
    status_ok dresp ∧
    "<archive>" = raw dresp ∧
    environ (Example.confluence "COMPLETE" (λ _, Example.noon))
      !! "S3_BUCKET_NAME" = Some "backups" ∧
    "confluence-backup-2025-01-02T03-04-05Z.zip"
      = object_name (name_prefix Confluence)
          (utc_clock (Example.confluence "COMPLETE" (λ _, Example.noon))
             (log initial ++ before ++ [Http dreq])).
Proof.
  apply (uploads_only_what_was_downloaded Confluence
    (Example.confluence "COMPLETE" (λ _, Example.noon)) PNone PNone initial
    (Example.first_run (λ _, Example.noon)).1
    (Example.first_run (λ _, Example.noon)).2).
  - vm_compute; reflexivity.
  - vm_compute; reflexivity.
  - do 3 apply list_elem_of_further. apply list_elem_of_here.
Defined.

(** X6. When a download entry point returns, the bucket named in
    [S3_BUCKET_NAME] holds, under the returned [filename], the stream the
    site served for the download request, and every other object of S3
    is as it was before the run. *)
Theorem returned_name_holds_the_download :
  ∀ (p : Product) (w : World) event context σ v σ',
    download_handler p w event context σ = (Ok v, σ') →
    ∃ name bucket before dreq dresp,
      v = success_result name ∧
      py_getitem_str v "filename" = Ok (PStr name) ∧
      environ w !! "S3_BUCKET_NAME" = Some bucket ∧
      stream dreq = true ∧
      site w (log σ ++ before) dreq = Ok dresp ∧
      s3 σ' !! (bucket, name) = Some (raw dresp) ∧
      ∀ k, k ≠ (bucket, name) → s3 σ' !! k = s3 σ !! k.
Proof.
  intros p w event context σ v σ' H.
  rewrite download_handler_split in H.
  apply bind_inv in H as [([[c sn] loc] & σ1 & Hf & Ht)|(e & _ & [=])].
  pose proof (keeps_s3_front _ _ _ _ _ Hf) as Hs1.
  apply front_no_upload in Hf as (l1 & Hl1 & _).
  apply transfer_inv in Ht
    as [(_ & _ & e & [=])
       |(dresp & b & Hsite & Hcode & Hb & _ & [[[= ->] Hs]|(e & [=] & _)])].
  rewrite Hl1 in Hsite.
  eexists _, b, l1,
    (get_request (download_url_of p sn (format_value w loc)) c true), dresp.
  split; [reflexivity|]. split; [apply success_result_fields|].
  split; [exact Hb|]. split; [reflexivity|]. split; [exact Hsite|].
  rewrite Hs, Hs1. split.
  - by rewrite lookup_insert_eq.
  - intros k Hk. by rewrite lookup_insert_ne.
Qed.

Lemma returned_name_holds_the_download_witness :
  ∃ name bucket before dreq dresp,
    success_result "confluence-backup-2025-01-02T03-04-05Z.zip"
      = success_result name ∧
    py_getitem_str
      (success_result "confluence-backup-2025-01-02T03-04-05Z.zip")
      "filename" = Ok (PStr name) ∧
    environ (Example.confluence "COMPLETE" (λ _, Example.noon))
      !! "S3_BUCKET_NAME" = Some bucket ∧
    stream dreq = true ∧
    site (Example.confluence "COMPLETE" (λ _, Example.noon))
      (log initial ++ before) dreq = Ok dresp ∧
    s3 (Example.first_run (λ _, Example.noon)).2 !! (bucket, name)
      = Some (raw dresp) ∧
    ∀ k, k ≠ (bucket, name) →
         s3 (Example.first_run (λ _, Example.noon)).2 !! k = s3 initial !! k.
Proof.
  apply (returned_name_holds_the_download Confluence
    (Example.confluence "COMPLETE" (λ _, Example.noon)) PNone PNone initial
    (success_result "confluence-backup-2025-01-02T03-04-05Z.zip")
    (Example.first_run (λ _, Example.noon)).2).
  vm_compute; reflexivity.
Defined.

(** ** One attempt, no retries *)

Lemma count_calls_app kind l1 l2 :
  count_calls kind (l1 ++ l2) = (count_calls kind l1 + count_calls kind l2)%nat.
Proof. unfold count_calls. by rewrite List.filter_app, length_app. Qed.

(** The calls of a credential fetch: none, or the one to Secrets
    Manager. *)
Lemma get_credentials_calls w σ r σ1 :
  get_credentials w σ = (r, σ1) →
  ∃ evs, log σ1 = log σ ++ evs ∧
    (count_calls is_secrets_call evs ≤ 1)%nat ∧
    count_calls is_site_request evs = 0%nat ∧
    count_calls is_upload evs = 0%nat.
Proof.
  intros H. apply get_credentials_log in H as [[-> _]|(rg & sid & ->)].
  - exists []. rewrite app_nil_r. repeat split; cbn; lia.
  - exists [SecretsGet rg sid]. repeat split; cbn; lia.
Qed.

Lemma locate_calls p w credentials site_name σ r σ1 :
  locate p w credentials site_name σ = (r, σ1) →
  ∃ evs, log σ1 = log σ ++ evs ∧
    count_calls is_secrets_call evs = 0%nat ∧
    (count_calls is_site_request evs
       ≤ match p with Confluence => 1 | Jira => 2 end)%nat ∧
    count_calls is_upload evs = 0%nat.
Proof.
  destruct p; simpl; intros H.
  - destruct (confluence_instances w credentials site_name) as (Ep & _ & _).
    rewrite Ep in H. apply poll_state in H as ->.
    eexists [_]. repeat split; cbn; lia.
  - destruct (jira_instances w credentials site_name) as (Ep & _ & _).
    apply bind_inv in H as [(tid & σ2 & H1 & H)|(e & H1 & _)];
      apply get_task_id_inv in H1 as [-> _].
    + rewrite Ep in H. apply poll_state in H as ->.
      eexists [_; _]. cbn [log emit]. rewrite <- app_assoc.
      repeat split; cbn; lia.
    + eexists [_]. repeat split; cbn; lia.
Qed.

Lemma trigger_backup_state w credentials flag σ r σ' :
  trigger_backup w credentials flag σ = (r, σ') →
  σ' = σ ∨ ∃ req, σ' = emit (Http req) σ.
Proof.
  unfold trigger_backup, requests_post, send. intros H.
  apply bind_inv in H as [(sn & σ1 & H1 & H)|(e & H1 & _)];
    apply os_environ_inv in H1 as [-> _]; [|by left].
  right. unfold print_text in H. rewrite ret_bind in H.
  apply bind_inv in H as [(resp & σ2 & [= _ <-] & H)|(e & [= _ <-] & _)];
    [|eauto].
  apply raise_for_status_inv in H as [-> _]. eauto.
Qed.

(** X7. A run of an entry point calls Secrets Manager at most once, makes at
    most two site requests in the Confluence download, three in the Jira
    download and one in the trigger, and uploads at most once (never, in
    the trigger): nothing is tried twice. *)
Theorem call_budget :
  ∀ (p : EntryPoint) (w : World) event context σ r σ' evs,
    entry_point p w event context σ = (r, σ') →
    log σ' = log σ ++ evs →
    (count_calls is_secrets_call evs ≤ 1)%nat ∧
    (count_calls is_site_request evs ≤ request_budget p)%nat ∧
    (count_calls is_upload evs
       ≤ match p with ConfluenceTriggerEntry => 0 | _ => 1 end)%nat.
Proof.
  assert (∀ (q : Product) w event context σ r σ' evs,
    download_handler q w event context σ = (r, σ') →
    log σ' = log σ ++ evs →
    (count_calls is_secrets_call evs ≤ 1)%nat ∧
    (count_calls is_site_request evs
       ≤ match q with Confluence => 2 | Jira => 3 end)%nat ∧
    (count_calls is_upload evs ≤ 1)%nat) as Hdownload.
  { intros q w event context σ r σ' evs H Hlog.
    rewrite download_handler_split in H. unfold front in H.
    assert (∃ l1 l2 l3,
      evs = l1 ++ l2 ++ l3 ∧
      (count_calls is_secrets_call l1 ≤ 1)%nat ∧
      count_calls is_site_request l1 = 0%nat ∧
      count_calls is_upload l1 = 0%nat ∧
      count_calls is_secrets_call l2 = 0%nat ∧
      (count_calls is_site_request l2
         ≤ match q with Confluence => 1 | Jira => 2 end)%nat ∧
      count_calls is_upload l2 = 0%nat ∧
      count_calls is_secrets_call l3 = 0%nat ∧
      (count_calls is_site_request l3 ≤ 1)%nat ∧
      (count_calls is_upload l3 ≤ 1)%nat) as (l1 & l2 & l3 & -> & Hc).
    { apply bind_inv in H as [(x & σ3 & Hf & Ht)|(e & Hf & _)].
      - apply bind_inv in Hf as [(c & σ1 & Hc & Hf)|(e & _ & [=])].
        apply get_credentials_calls in Hc as (l1 & Hl1 & Hc).
        apply bind_inv in Hf as [(sn & σ2 & H1 & Hf)|(e & _ & [=])].
        apply os_environ_inv in H1 as [-> _].
        apply bind_inv in Hf as [(loc & σ4 & Hp & Hf)|(e & _ & [=])].
        injection Hf as <- <-.
        apply locate_calls in Hp as (l2 & Hl2 & Hp).
        apply transfer_inv in Ht as [(Hl & _)|(dresp & b & _ & _ & _ & Hl & _)];
          rewrite Hl, Hl2, Hl1, <- !app_assoc in Hlog;
          apply app_inv_head in Hlog as <-;
          eexists l1, l2, _; (split; [reflexivity|]);
          destruct Hc as (Hc1&Hc2&Hc3), Hp as (Hp1&Hp2&Hp3);
          repeat split; try done; cbn; lia.
      - apply bind_inv in Hf as [(c & σ1 & Hc & Hf)|(e' & Hc & _)];
          apply get_credentials_calls in Hc as (l1 & Hl1 & Hc);
          destruct Hc as (Hc1&Hc2&Hc3).
        + apply bind_inv in Hf as [(sn & σ2 & H1 & Hf)|(e' & H1 & _)];
            apply os_environ_inv in H1 as [-> _].
          * apply bind_inv in Hf as [(loc & σ4 & Hp & [=])|(e' & Hp & _)].
            apply locate_calls in Hp as (l2 & Hl2 & Hp).
            destruct Hp as (Hp1&Hp2&Hp3).
            rewrite Hl2, Hl1, <- !app_assoc in Hlog.
            apply app_inv_head in Hlog as <-.
            exists l1, l2, []. rewrite app_nil_r.
            repeat split; try done; cbn; lia.
          * rewrite Hl1 in Hlog. apply app_inv_head in Hlog as <-.
            exists l1, [], []. rewrite !app_nil_r.
            repeat split; try done; destruct q; cbn; lia.
        + rewrite Hl1 in Hlog. apply app_inv_head in Hlog as <-.
          exists l1, [], []. rewrite !app_nil_r.
          repeat split; try done; destruct q; cbn; lia. }
    rewrite !count_calls_app. destruct q; lia. }
  intros [| |] w event context σ r σ' evs H Hlog.
  - apply (Hdownload Confluence w event context σ r σ' evs H Hlog).
  - apply (Hdownload Jira w event context σ r σ' evs H Hlog).
  - simpl in H. unfold lambda_handler in H.
    assert (∃ l1 l2,
      evs = l1 ++ l2 ∧
      (count_calls is_secrets_call l1 ≤ 1)%nat ∧
      count_calls is_site_request l1 = 0%nat ∧
      count_calls is_upload l1 = 0%nat ∧
      count_calls is_secrets_call l2 = 0%nat ∧
      (count_calls is_site_request l2 ≤ 1)%nat ∧
      count_calls is_upload l2 = 0%nat) as (l1 & l2 & -> & Hc).
    { apply bind_inv in H as [(c & σ1 & Hc & H)|(e & Hc & _)];
        apply get_credentials_calls in Hc as (l1 & Hl1 & Hc);
        destruct Hc as (Hc1&Hc2&Hc3); exists l1.
      - assert (σ' = σ1 ∨ ∃ req, σ' = emit (Http req) σ1) as [->|[req ->]].
        { apply bind_inv in H as [(flag & σ2 & H1 & H)|(e & H1 & _)];
            apply lift_inv in H1 as [-> _]; [|by left].
          apply bind_inv in H as [(? & σ3 & H1 & H)|(e & H1 & _)].
          - injection H as _ <-. by apply trigger_backup_state in H1.
          - by apply trigger_backup_state in H1. }
        + rewrite Hl1 in Hlog. apply app_inv_head in Hlog as <-.
          exists []. rewrite app_nil_r. repeat split; try done; cbn; lia.
        + cbn [log emit] in Hlog. rewrite Hl1, <- app_assoc in Hlog.
          apply app_inv_head in Hlog as <-.
          eexists [_]. repeat split; try done; cbn; lia.
      - rewrite Hl1 in Hlog. apply app_inv_head in Hlog as <-.
        exists []. rewrite app_nil_r. repeat split; try done; cbn; lia. }
    rewrite !count_calls_app. simpl. lia.
Qed.

(** The successful Jira run: one call to Secrets Manager, three site
    requests, one upload. *)
Lemma call_budget_witness :
  (count_calls is_secrets_call
     (log (JiraDownload.lambda_handler
             (Example.jira "Success" (λ _, Example.noon))
             PNone PNone initial).2) ≤ 1)%nat ∧
  (count_calls is_site_request
     (log (JiraDownload.lambda_handler
             (Example.jira "Success" (λ _, Example.noon))
             PNone PNone initial).2) ≤ 3)%nat ∧
  (count_calls is_upload
     (log (JiraDownload.lambda_handler
             (Example.jira "Success" (λ _, Example.noon))
             PNone PNone initial).2) ≤ 1)%nat.
Proof.
  apply (call_budget JiraDownloadEntry
    (Example.jira "Success" (λ _, Example.noon)) PNone PNone initial
    (JiraDownload.lambda_handler
       (Example.jira "Success" (λ _, Example.noon)) PNone PNone initial).1
    (JiraDownload.lambda_handler
       (Example.jira "Success" (λ _, Example.noon)) PNone PNone initial).2).
  - apply surjective_pairing.
  - reflexivity.
Defined.

(** ** Where the requests go *)

Lemma produces_os_environ_bind {B} P w k (f : string → M B) :
  (∀ v, environ w !! k = Some v → produces P (f v)) →
  produces P (os_environ w k ≫= f).
Proof.
  intros Hf σ r σ' H.
  apply bind_inv in H as [(v & σ1 & H1 & H)|(e & H1 & _)];
    apply os_environ_inv in H1 as [-> H1].
  - destruct H1 as [[[=] _]|(v' & [= <-] & Hv)]. by eapply Hf.
  - exists []. by rewrite app_nil_r.
Qed.

(** Closes the goal that a request of the program goes to the configured
    site. *)
Ltac to_site sn :=
  first [ done
        | split; [reflexivity|]; eexists sn, _; split; [eassumption|];
          reflexivity ].

(** X8. Every site request of a run goes by [https] to the host named in
    [SITE_NAME]; the two download entry points only ever [GET], the
    trigger only ever [POST]s. *)
Theorem requests_go_to_the_configured_site :
  ∀ (p : EntryPoint) (w : World) event context σ r σ' evs,
    entry_point p w event context σ = (r, σ') →
    log σ' = log σ ++ evs →
    Forall (to_configured_site w
              match p with ConfluenceTriggerEntry => POST | _ => GET end)
           evs.
Proof.
  intros p w event context σ r σ' evs H Hlog.
  assert (produces
            (to_configured_site w
               match p with ConfluenceTriggerEntry => POST | _ => GET end)
            (entry_point p w event context)) as Hp.
  { destruct p; simpl.
    - unfold ConfluenceDownload.lambda_handler.
      apply produces_bind; [by apply produces_get_credentials|intros c].
      unfold get_site_name. apply produces_os_environ_bind. intros sn Hsn.
      unfold ConfluenceDownload.get_download_url,
        ConfluenceDownload.download_file, ConfluenceDownload.upload_to_s3,
        response_json, requests_get.
      produces_steps; to_site sn.
    - unfold JiraDownload.lambda_handler.
      apply produces_bind; [by apply produces_get_credentials|intros c].
      unfold get_site_name. apply produces_os_environ_bind. intros sn Hsn.
      unfold JiraDownload.get_task_id, JiraDownload.get_download_url,
        JiraDownload.download_file, JiraDownload.upload_to_s3,
        response_json, requests_get.
      produces_steps; to_site sn.
    - unfold lambda_handler.
      apply produces_bind; [by apply produces_get_credentials|intros c].
      apply produces_bind; [apply produces_lift|intros flag].
      apply produces_bind; [|intros; apply produces_ret].
      unfold trigger_backup. apply produces_os_environ_bind. intros sn Hsn.
      unfold requests_post. produces_steps; to_site sn. }
  apply Hp in H as (evs' & Hlog' & Hall).
  rewrite Hlog' in Hlog. by apply app_inv_head in Hlog as <-.
Qed.

Lemma requests_go_to_the_configured_site_witness :
  Forall (to_configured_site (Example.jira "Success" (λ _, Example.noon)) GET)
    (log (JiraDownload.lambda_handler
            (Example.jira "Success" (λ _, Example.noon))
            PNone PNone initial).2).
Proof.
  apply (requests_go_to_the_configured_site JiraDownloadEntry
    (Example.jira "Success" (λ _, Example.noon)) PNone PNone initial
    (JiraDownload.lambda_handler
       (Example.jira "Success" (λ _, Example.noon)) PNone PNone initial).1
    (JiraDownload.lambda_handler
       (Example.jira "Success" (λ _, Example.noon)) PNone PNone initial).2).
  - apply surjective_pairing.
  - reflexivity.
Defined.

(** ** A request that goes wrong ends the run *)

Lemma checked_silent {A} w (m : M A) :
  (∀ σ, log (m σ).2 = log σ) → checked w m.
Proof.
  intros Hm σ r σ' H. exists []. specialize (Hm σ). rewrite H in Hm.
  simpl in Hm. rewrite app_nil_r. split; [done|].
  intros before req after e Hnil. by destruct before.
Qed.

Lemma checked_other {A} w (m : M A) ev :
  is_site_request ev = false →
  (∀ σ, log (m σ).2 = log σ ++ [ev]) → checked w m.
Proof.
  intros Hev Hm σ r σ' H. exists [ev]. specialize (Hm σ). rewrite H in Hm.
  split; [done|].
  intros before req after e Heq.
  destruct before as [|x [|y before]]; simplify_eq/=.
Qed.

Lemma checked_bind {A B} w (m : M A) (f : A → M B) :
  checked w m → (∀ a, checked w (f a)) → checked w (m ≫= f).
Proof.
  intros Hm Hf σ r σ' H.
  apply bind_inv in H as [(a & σ1 & H1 & H2)|(e & H1 & ->)].
  - destruct (Hm _ _ _ H1) as (l1 & E1 & C1).
    destruct (Hf _ _ _ _ H2) as (l2 & E2 & C2).
    exists (l1 ++ l2). rewrite E2, E1, <- app_assoc. split; [done|].
    intros before req after e Heq Hbad.
    apply app_eq_app in Heq as (k & [(-> & Hk)|(-> & Hk)]).
    + destruct k as [|x k].
      * simpl in Hk. subst l2.
        apply (C2 [] req after e); [done|]. by rewrite E1, !app_nil_r.
      * injection Hk as <- ->.
        by destruct (C1 before req k e) as [_ [=]].
    + apply (C2 k req after e); [done|]. by rewrite E1, <- app_assoc.
  - destruct (Hm _ _ _ H1) as (l1 & E1 & C1). exists l1. split; [done|].
    intros before req after e' Heq Hbad.
    destruct (C1 before req after e' Heq Hbad) as [-> [= ->]]. done.
Qed.

(** The shape every request of the three files has: the request, the
    check of its status, and only then the rest. *)
Lemma checked_request {B} w req (k : Response → M B) :
  (∀ resp, checked w (k resp)) →
  checked w (send w req ≫= λ resp, raise_for_status resp ≫= λ _, k resp).
Proof.
  intros Hk σ r σ' H. unfold mbind, M_bind, send, raise_for_status in H.
  destruct (site w (log σ) req) as [resp|e] eqn:Hs.
  - destruct ((400 <=? status_code resp) && (status_code resp <? 600))
      eqn:Hcode.
    + injection H as <- <-. exists [Http req]. split; [done|].
      intros before req' after e Heq Hbad.
      destruct before as [|x [|y before]]; simplify_eq/=.
      unfold refusal in Hbad. rewrite app_nil_r, Hs, Hcode in Hbad.
      by injection Hbad as <-.
    + unfold mret, M_ret in H.
      destruct (Hk _ _ _ _ H) as (l2 & E2 & C2).
      exists (Http req :: l2). cbn [log emit] in E2.
      split; [by rewrite E2, <- app_assoc|].
      intros before req' after e Heq Hbad.
      destruct before as [|x before]; simplify_eq/=.
      * unfold refusal in Hbad. by rewrite app_nil_r, Hs, Hcode in Hbad.
      * apply (C2 before req' after e); [done|].
        cbn [log emit]. by rewrite <- app_assoc.
  - injection H as <- <-. exists [Http req]. split; [done|].
    intros before req' after e' Heq Hbad.
    destruct before as [|x [|y before]]; simplify_eq/=.
    unfold refusal in Hbad. rewrite app_nil_r, Hs in Hbad.
    by injection Hbad as <-.
Qed.

Lemma checked_request_last w req :
  checked w (send w req ≫= λ resp, raise_for_status resp).
Proof.
  intros σ r σ' H. unfold mbind, M_bind, send, raise_for_status in H.
  exists [Http req].
  destruct (site w (log σ) req) as [resp|e] eqn:Hs;
    [destruct ((400 <=? status_code resp) && (status_code resp <? 600))
       eqn:Hcode|];
    injection H as <- <-; (split; [done|]);
    intros before req' after e' Heq Hbad;
    (destruct before as [|x [|y before]]; simplify_eq/=);
    unfold refusal in Hbad; rewrite app_nil_r, Hs, ?Hcode in Hbad;
    by simplify_eq.
Qed.

Lemma checked_ret {A} w (a : A) : checked w (mret a).
Proof. by apply checked_silent. Qed.

Lemma checked_raise {A} w e : checked w (@raise A e).
Proof. by apply checked_silent. Qed.

Lemma checked_lift {A} w (x : Result A) : checked w (lift x).
Proof. by apply checked_silent. Qed.

Lemma checked_os_environ w k : checked w (os_environ w k).
Proof.
  apply checked_silent. intros σ. unfold os_environ.
  by destruct (environ w !! k).
Qed.

Lemma checked_json_loads_val w v : checked w (json_loads_val w v).
Proof.
  apply checked_silent. intros σ. unfold json_loads_val.
  destruct v; try done. by destruct (json_loads w s).
Qed.

Lemma checked_datetime_utcnow w : checked w (datetime_utcnow w).
Proof. by apply checked_silent. Qed.

Lemma checked_get_secret_value w region secret_id :
  checked w (get_secret_value w region secret_id).
Proof. by apply (checked_other _ _ (SecretsGet region secret_id)). Qed.

Lemma checked_s3_upload_fileobj w body bucket key :
  checked w (s3_upload_fileobj w body bucket key).
Proof.
  apply (checked_other _ _ (S3Upload bucket key body)); [done|].
  intros σ. unfold s3_upload_fileobj.
  by destruct (s3_upload w (log σ) bucket key body).
Qed.

Lemma checked_print_text w text : checked w (print_text text).
Proof. by apply checked_silent. Qed.

Lemma checked_print_value w label v : checked w (print_value label v).
Proof.
  apply checked_silent. intros σ. unfold print_value.
  by destruct (printable v).
Qed.

Create HintDb checked.
#[global] Hint Resolve checked_ret checked_raise checked_lift
  checked_os_environ checked_json_loads_val checked_datetime_utcnow
  checked_get_secret_value checked_s3_upload_fileobj
  checked_print_text checked_print_value : checked.

Ltac checked_steps :=
  repeat first
    [ apply checked_request; intros ?
    | apply checked_request_last
    | apply checked_bind; [|intros ?]
    | match goal with |- checked _ (if ?b then _ else _) => destruct b end
    | solve [auto with checked] ].

(** X9. In every run of an entry point, a site request that raises, or that
    is answered with a 4xx or 5xx status, is the last call of the run,
    and the run fails with that exception, respectively with the
    [HTTPError] of that status: no response is used before its status
    has been checked, and nothing is retried. *)
Theorem failed_request_ends_the_run :
  ∀ (p : EntryPoint) (w : World) event context σ r σ' before req after e,
    entry_point p w event context σ = (r, σ') →
    log σ' = log σ ++ before ++ Http req :: after →
    refusal w (log σ ++ before) req = Some e →
    after = [] ∧ r = Err e.
Proof.
  intros p w event context σ r σ' before req after e H Hlog Hbad.
  assert (checked w (entry_point p w event context)) as Hp.
  { destruct p; simpl;
      unfold ConfluenceDownload.lambda_handler, JiraDownload.lambda_handler,
        lambda_handler, get_credentials, get_secret, get_site_name,
        ConfluenceDownload.get_download_url, ConfluenceDownload.download_file,
        ConfluenceDownload.upload_to_s3, JiraDownload.get_task_id,
        JiraDownload.get_download_url, JiraDownload.download_file,
        JiraDownload.upload_to_s3, trigger_backup,
        response_json, requests_get, requests_post;
      checked_steps. }
  apply Hp in H as (evs & Hevs & Hc).
  rewrite Hevs in Hlog. apply app_inv_head in Hlog as ->.
  by apply (Hc before req after e).
Qed.

(** The Confluence download answered with 404: the run ends there with
    [HTTPError 404]. *)
Lemma failed_request_ends_the_run_witness :
  (ConfluenceDownload.lambda_handler (Faulty.confluence_download_status 404)
     PNone PNone initial).1 = Err (HTTPError 404).
Proof.
  refine (proj2 (failed_request_ends_the_run ConfluenceDownloadEntry
    (Faulty.confluence_download_status 404) PNone PNone initial
    (ConfluenceDownload.lambda_handler
       (Faulty.confluence_download_status 404) PNone PNone initial).1
    (ConfluenceDownload.lambda_handler
       (Faulty.confluence_download_status 404) PNone PNone initial).2
    [SecretsGet "us-east-1" "atlassian/backups/credentials";
     Http (get_request
             "https://example.atlassian.net/wiki/rest/obm/1.0/getprogress.json"
             Example.credentials false)]
    (get_request "https://example.atlassian.net/wiki/download/backup.zip"
       Example.credentials true)
    [] (HTTPError 404) _ _ _)).
  - apply surjective_pairing.
  - vm_compute; reflexivity.
  - vm_compute; reflexivity.
Defined.

(** ** Missing configuration *)

(** X10. Without [SITE_NAME], every entry point that has fetched its
    credentials (and, in the trigger, has read the flag from the event)
    fails with [KeyError SITE_NAME] before making any site request. *)
Theorem missing_site_name_makes_no_request :
  ∀ (p : EntryPoint) (w : World) event context σ credentials σ1,
    get_credentials w σ = (Ok credentials, σ1) →
    environ w !! "SITE_NAME" = None →
    (p = ConfluenceTriggerEntry →
     ∃ flag, are_attachments_included event = Ok flag) →
    entry_point p w event context σ = (Err (KeyError "SITE_NAME"), σ1).
Proof.
  intros p w event context σ c σ1 Hc Hsn Hflag.
  rewrite entry_point_unfold. rewrite (bind_ok _ _ _ _ _ Hc).
  destruct p; simpl.
  - apply bind_err. unfold get_site_name, os_environ. by rewrite Hsn.
  - apply bind_err. unfold get_site_name, os_environ. by rewrite Hsn.
  - destruct Hflag as [flag Hflag]; [done|].
    erewrite bind_ok by (unfold lift; by rewrite Hflag).
    apply bind_err. unfold trigger_backup. apply bind_err.
    unfold os_environ. by rewrite Hsn.
Qed.

Lemma missing_site_name_makes_no_request_witness :
  entry_point ConfluenceTriggerEntry
    (Faulty.without_env "SITE_NAME" Example.accepting)
    (Example.include (PBool true)) PNone initial
    = (Err (KeyError "SITE_NAME"), Example.fetched) ∧
  entry_point JiraDownloadEntry
    (Faulty.without_env "SITE_NAME" Example.accepting) PNone PNone initial
    = (Err (KeyError "SITE_NAME"), Example.fetched).
Proof.
  split.
  - apply (missing_site_name_makes_no_request ConfluenceTriggerEntry
      (Faulty.without_env "SITE_NAME" Example.accepting)
      (Example.include (PBool true)) PNone initial Example.credentials).
    + vm_compute; reflexivity.
    + vm_compute; reflexivity.
    + intros _. exists "true". vm_compute; reflexivity.
  - apply (missing_site_name_makes_no_request JiraDownloadEntry
      (Faulty.without_env "SITE_NAME" Example.accepting)
      PNone PNone initial Example.credentials).
    + vm_compute; reflexivity.
    + vm_compute; reflexivity.
    + discriminate.
Defined.

(** X11. [S3_BUCKET_NAME] is read only after the download: without it, a run
    that found its locator and whose download request was answered well
    fails with [KeyError S3_BUCKET_NAME], the download request being its
    last call; nothing is uploaded. *)
Theorem missing_bucket_found_after_download :
  ∀ (p : Product) (w : World) event context σ
    credentials site_name locator σ1 dresp,
    let dreq := get_request
      (download_url_of p site_name (format_value w locator))
      credentials true in
    front p w σ = (Ok (credentials, site_name, locator), σ1) →
    site w (log σ1) dreq = Ok dresp →
    status_ok dresp →
    environ w !! "S3_BUCKET_NAME" = None →
    download_handler p w event context σ
      = (Err (KeyError "S3_BUCKET_NAME"), emit (Http dreq) σ1).
Proof.
  intros p w event context σ c sn loc σ1 dresp dreq Hf Hsite Hcode Hb.
  rewrite download_handler_split, (bind_ok _ _ _ _ _ Hf).
  unfold transfer, fetch, upload_named. run.
  unfold dreq, get_request in Hsite.
  by rewrite Hsite, (raise_for_status_ok _ _ Hcode), Hb.
Qed.

Lemma missing_bucket_found_after_download_witness :
  download_handler Confluence
    (Faulty.without_env "S3_BUCKET_NAME"
       (Example.confluence "COMPLETE" (λ _, Example.noon)))
    PNone PNone initial
  = (Err (KeyError "S3_BUCKET_NAME"),
     emit (Http (get_request
                   "https://example.atlassian.net/wiki/download/backup.zip"
                   Example.credentials true))
       (emit (Http (get_request
                      "https://example.atlassian.net/wiki/rest/obm/1.0/getprogress.json"
                      Example.credentials false))
          Example.fetched)).
Proof.
  apply (missing_bucket_found_after_download Confluence
    (Faulty.without_env "S3_BUCKET_NAME"
       (Example.confluence "COMPLETE" (λ _, Example.noon)))
    PNone PNone initial Example.credentials Example.site_name
    (PStr "backup.zip") _ (Example.response "<archive>")).
  - vm_compute; reflexivity.
  - vm_compute; reflexivity.
  - unfold status_ok; simpl; lia.
  - vm_compute; reflexivity.
Defined.

(** ** A status document that cannot be read *)




(** ** The trigger from end to end *)

(** X13. The trigger returns exactly when the credentials are fetched, the
    event yields a flag, [SITE_NAME] is set and the site answers the
    run-backup request with a status that passes; it then returns the
    dictionary whose [status] is [success], having made that one request
    and left S3 alone. *)
Theorem trigger_returns_iff_accepted :
  ∀ (w : World) event context σ v σ',
    lambda_handler w event context σ = (Ok v, σ') ↔
    ∃ credentials σ1 flag site_name resp,
      get_credentials w σ = (Ok credentials, σ1) ∧
      are_attachments_included event = Ok flag ∧
      environ w !! "SITE_NAME" = Some site_name ∧
      site w (log σ1) (trigger_request site_name credentials flag) = Ok resp ∧
      status_ok resp ∧
      v = PDict (<["status" := PStr "success"]> ∅) ∧
      σ' = emit (Http (trigger_request site_name credentials flag)) σ1.
Proof.
  intros w event context σ v σ'. split.
  - unfold lambda_handler. intros H.
    apply bind_inv in H as [(c & σ1 & Hc & H)|(e & _ & [=])].
    apply bind_inv in H as [(flag & σ2 & H1 & H)|(e & _ & [=])].
    apply lift_inv in H1 as [-> Hflag].
    apply bind_inv in H as [([] & σ3 & H1 & H)|(e & _ & [=])].
    injection H as <- <-. unfold trigger_backup in H1.
    apply bind_inv in H1 as [(sn & σ4 & H2 & H1)|(e & _ & [=])].
    apply os_environ_inv in H2 as [-> [[[=] _]|(sn' & [= <-] & Hsn)]].
    unfold print_text in H1. rewrite ret_bind in H1.
    unfold requests_post, send in H1.
    apply bind_inv in H1 as [(resp & σ5 & [= Hs <-] & H1)|(e & _ & [=])].
    apply raise_for_status_inv in H1 as [-> [[_ Hok]|[=]]].
    by exists c, σ1, flag, sn, resp.
  - intros (c & σ1 & flag & sn & resp & Hc & Hflag & Hsn & Hs & Hok & -> & ->).
    unfold lambda_handler. rewrite (bind_ok _ _ _ _ _ Hc).
    unfold trigger_backup, trigger_request, trigger_body,
      trigger_headers in *. run.
    by rewrite Hflag, Hsn, Hs, (raise_for_status_ok _ _ Hok).
Qed.

(** ** Events that are not dictionaries *)

(** X14. Only an event that is a dictionary can turn attachments on.  An
    event that is [None], a boolean or a number makes the flag fail with
    [TypeError]; so does a string that contains [includeAttachments] and
    a list that holds it, while any other string or list gives the flag
    [false]. *)
Theorem flag_of_other_events :
  (∀ event, are_attachments_included event = Ok "true" →
     ∃ d v, event = PDict d ∧ d !! "includeAttachments" = Some v ∧
            truthy v = true) ∧
  are_attachments_included PNone = Err TypeError ∧
  (∀ b, are_attachments_included (PBool b) = Err TypeError) ∧
  (∀ n, are_attachments_included (PInt n) = Err TypeError) ∧
  (∀ f, are_attachments_included (PFloat f) = Err TypeError) ∧
  (∀ s, are_attachments_included (PStr s) =
        if is_substring "includeAttachments" s
        then Err TypeError else Ok "false") ∧
  (∀ l, are_attachments_included (PList l) =
        if existsb (λ x, py_eq_str x "includeAttachments") l
        then Err TypeError else Ok "false").
Proof.
  split; [|split; [done|split; [done|split; [done|split; [done|split]]]]].
  - intros event H. destruct event as [| | | | s | l | d]; try done.
    + unfold are_attachments_included in H. simpl in H.
      by destruct (is_substring _ s).
    + unfold are_attachments_included in H. simpl in H.
      by destruct (existsb _ l).
    + rewrite are_attachments_included_dict in H.
      destruct (d !! "includeAttachments") as [v|] eqn:E; [|done].
      exists d, v. destruct (truthy v); by simplify_eq.
  - intros s. unfold are_attachments_included. simpl.
    by destruct (is_substring _ s).
  - intros l. unfold are_attachments_included. simpl.
    by destruct (existsb _ l).
Qed.

Lemma flag_of_other_events_witness :
  ∃ d v, Example.include (PInt 1) = PDict d ∧
         d !! "includeAttachments" = Some v ∧ truthy v = true.
Proof.
  apply (proj1 flag_of_other_events (Example.include (PInt 1))).
  vm_compute; reflexivity.
Defined.

(** X15. An event from which no flag can be read stops the trigger after the
    credential fetch: the run fails with the exception of the flag and
    makes no site request. *)
Theorem unreadable_event_makes_no_request :
  ∀ (w : World) event context σ credentials σ1 e,
    get_credentials w σ = (Ok credentials, σ1) →
    are_attachments_included event = Err e →
    lambda_handler w event context σ = (Err e, σ1).
Proof.
  intros w event context σ c σ1 e Hc He. unfold lambda_handler.
  rewrite (bind_ok _ _ _ _ _ Hc). apply bind_err. unfold lift.
  by rewrite He.
Qed.

(** The event [None]. *)
Lemma unreadable_event_makes_no_request_witness :
  lambda_handler Example.accepting PNone PNone initial
    = (Err TypeError, Example.fetched).
Proof.
  apply (unreadable_event_makes_no_request Example.accepting PNone PNone
    initial Example.credentials).
  - vm_compute; reflexivity.
  - reflexivity.
Defined.

(** ** Object names in the order of time *)

Lemma digit_compare a b :
  Ascii.compare (digit a) (digit b) = (a mod 10 ?= b mod 10).
Proof.
  unfold Ascii.compare, digit, ascii_of_nat.
  pose proof (Z.mod_pos_bound a 10). pose proof (Z.mod_pos_bound b 10).
  rewrite !N_ascii_embedding by lia.
  rewrite <- N2Z.inj_compare, !nat_N_Z, !Z2Nat.id by lia.
  apply Z.add_compare_mono_l.
Qed.

Lemma string_compare_cons c r1 r2 :
  String.compare (String c r1) (String c r2) = String.compare r1 r2.
Proof. simpl. unfold Ascii.compare. by rewrite N.compare_refl. Qed.

Lemma string_compare_prefix p a b :
  String.compare (p +:+ a) (p +:+ b) = String.compare a b.
Proof.
  induction p as [|c p IH]; [done|].
  simpl. unfold Ascii.compare. by rewrite N.compare_refl.
Qed.

Lemma pad2_compare a b r1 r2 :
  0 <= a < 100 → 0 <= b < 100 →
  String.compare (String (digit (a / 10)) (String (digit a) r1))
                 (String (digit (b / 10)) (String (digit b) r2))
    = lexi (a ?= b) (String.compare r1 r2).
Proof.
  intros Ha Hb. cbn [String.compare]. rewrite !digit_compare.
  destruct (Z.compare_spec ((a / 10) mod 10) ((b / 10) mod 10)),
    (Z.compare_spec (a mod 10) (b mod 10)), (Z.compare_spec a b);
    simpl; try reflexivity; exfalso;
    Z.to_euclidean_division_equations; lia.
Qed.

Lemma pad4_compare a b r1 r2 :
  0 <= a < 10000 → 0 <= b < 10000 →
  String.compare
    (String (digit (a / 1000)) (String (digit (a / 100))
       (String (digit (a / 10)) (String (digit a) r1))))
    (String (digit (b / 1000)) (String (digit (b / 100))
       (String (digit (b / 10)) (String (digit b) r2))))
    = lexi (a ?= b) (String.compare r1 r2).
Proof.
  intros Ha Hb.
  assert (∀ n, digit (n / 1000) = digit (n / 100 / 10)) as E1.
  { intros n. unfold digit. do 3 f_equal.
    Z.to_euclidean_division_equations; lia. }
  assert (∀ n, digit (n / 10) = digit (n mod 100 / 10)) as E2.
  { intros n. unfold digit. do 3 f_equal.
    Z.to_euclidean_division_equations; lia. }
  assert (∀ n, digit n = digit (n mod 100)) as E3.
  { intros n. unfold digit. do 3 f_equal.
    Z.to_euclidean_division_equations; lia. }
  rewrite (E1 a), (E1 b), (E2 a), (E2 b), (E3 a), (E3 b).
  rewrite pad2_compare, pad2_compare
    by (Z.to_euclidean_division_equations; lia).
  destruct (Z.compare_spec (a / 100) (b / 100)),
    (Z.compare_spec (a mod 100) (b mod 100)), (Z.compare_spec a b);
    simpl; try reflexivity; exfalso;
    Z.to_euclidean_division_equations; lia.
Qed.

(** X16. From the year 1000 on, where [%Y] is four digits in every C
    library, the byte-wise order of two object names of one product is
    the order of their clock readings down to the second: listing a
    bucket by key lists the backups of a product from the oldest to the
    newest. *)
Theorem names_sort_by_time :
  ∀ prefix t1 t2,
    valid_datetime t1 → valid_datetime t2 →
    1000 <= year t1 → 1000 <= year t2 →
    String.compare (object_name prefix t1) (object_name prefix t2)
      = compare_seconds t1 t2.
Proof.
  intros prefix t1 t2 (?&?&?&?&?&?&?) (?&?&?&?&?&?&?) _ _.
  unfold object_name, compare_seconds. rewrite string_compare_prefix.
  unfold strftime, pad4, pad2.
  cbv beta iota fix delta [String.append].
  rewrite pad4_compare by lia. f_equal.
  rewrite string_compare_cons, pad2_compare by lia. f_equal.
  rewrite string_compare_cons, pad2_compare by lia. f_equal.
  rewrite string_compare_cons, pad2_compare by lia. f_equal.
  rewrite string_compare_cons, pad2_compare by lia. f_equal.
  rewrite string_compare_cons, pad2_compare by lia.
  by destruct (second t1 ?= second t2).
Qed.

(** New Year's Eve and New Year's Day. *)
Lemma names_sort_by_time_witness :
  String.compare
    (object_name "jira-backup-" (mk_datetime 2025 12 31 23 59 59 0))
    (object_name "jira-backup-" (mk_datetime 2026 1 1 0 0 0 0)) = Lt.
Proof.
  apply (names_sort_by_time "jira-backup-"
    (mk_datetime 2025 12 31 23 59 59 0) (mk_datetime 2026 1 1 0 0 0 0));
    unfold valid_datetime; simpl; lia.
Defined.
